(** * airlock-benchmark: token accounting of meta-tools against full expansion

    A shallow embedding of [src/token-counter.ts], [src/benchmark.ts] and
    [src/benchmark-live.ts], and the properties of the token estimator, the
    OpenAPI normalizer, the synthetic catalog generator, the two cost
    models, the scenarios of [main], and the command line, the
    authentication and the MCP client of the live benchmark.

    Conventions.
    - A JavaScript string is the list of its UTF-16 code units; [length] is
      the [.length] of the string and a regular expression without the [u]
      flag reads one code unit at a time.
    - A JavaScript number that is an integer by construction (a count, a
      length, a sum of counts) is a [Z]; a number that comes out of a
      division or of a product with a decimal constant is a [Q], computed
      exactly.  The estimator takes [Math.ceil] of tenths and of quarters
      of counts, where binary64 arithmetic gives what exact arithmetic
      gives; percentages and costs are the exact quotients that binary64
      rounds to 53 bits.
    - Code that may throw returns an [option]; code that reads or writes the
      module-level encoder is a state transformer over [world]. *)

From Stdlib Require Import String Ascii DecimalString DecimalNat.
From Stdlib Require Import ZArith NArith QArith Qround Bool List FinFun Lia.
From Stdlib Require Import Permutation.
Import ListNotations.
Close Scope Q_scope.

#[local] Set Warnings "-register-all".

(* ------------------------------------------------------------------ *)
(** ** JavaScript strings and the character classes of the regular
       expressions the program uses *)

Module JS.

Definition jsstring := list N.

(** A string literal of the source (ASCII) as code units. *)
Fixpoint lit (s : string) : jsstring :=
  match s with
  | EmptyString => []
  | String c s' => N_of_ascii c :: lit s'
  end.

Definition jsstring_eq_dec : forall a b : jsstring, {a = b} + {a <> b} :=
  list_eq_dec N.eq_dec.

Definition str_eqb (a b : jsstring) : bool :=
  if jsstring_eq_dec a b then true else false.

Definition in_range (lo hi c : N) : bool := ((lo <=? c) && (c <=? hi))%N.

(** [[a-z]], [[A-Z]], [[0-9]], [[a-zA-Z0-9]] *)
Definition is_lower (c : N) : bool := in_range 97 122 c.
Definition is_upper (c : N) : bool := in_range 65 90 c.
Definition is_digit (c : N) : bool := in_range 48 57 c.
Definition is_alnum (c : N) : bool := is_lower c || is_upper c || is_digit c.

(** [\s]: ECMAScript WhiteSpace and LineTerminator code points. *)
Definition is_space (c : N) : bool :=
  (in_range 9 13 c || (c =? 32) || (c =? 160) || (c =? 5760)
   || in_range 8192 8202 c || (c =? 8232) || (c =? 8233) || (c =? 8239)
   || (c =? 8287) || (c =? 12288) || (c =? 65279))%N.

(** The class of [{ } [ ] : ,] and the double quote. *)
Definition is_structural (c : N) : bool :=
  ((c =? 123) || (c =? 125) || (c =? 91) || (c =? 93)
   || (c =? 58) || (c =? 44) || (c =? 34))%N.

Definition SPACE : N := 32.
Definition QUOTE : N := 34.
Definition UNDERSCORE : N := 95.

(** [text.match(/[...]/g)] for a one-character class: the array of the
    matches, or [null] when there is none. *)
Definition match_class (p : N -> bool) (text : jsstring) : option (list jsstring) :=
  match filter p text with
  | [] => None
  | ms => Some (map (fun c => [c]) ms)
  end.

(** [x || []] *)
Definition or_empty {A} (x : option (list A)) : list A :=
  match x with Some l => l | None => [] end.

(** [text.replace(/[...]/g, r)] for a one-character class and a
    one-character replacement. *)
Definition replace_class (p : N -> bool) (r : N) (text : jsstring) : jsstring :=
  map (fun c => if p c then r else c) text.

(** [text.replace(/([a-z])([A-Z])/g, '$1 $2')]: the scan goes left to right
    and resumes after the two characters of a match. *)
Fixpoint replace_camel (text : jsstring) : jsstring :=
  match text with
  | a :: ((b :: rest') as rest) =>
      if is_lower a && is_upper b
      then a :: SPACE :: b :: replace_camel rest'
      else a :: replace_camel rest
  | _ => text
  end.

(** [text.split(/\s+/)]: the pieces between the maximal runs of white space;
    [prev_ws] says that the scan is inside such a run.  The result of
    [split] is never empty: the empty string gives one empty piece. *)
Fixpoint split_from (prev_ws : bool) (text : jsstring) : list jsstring :=
  match text with
  | [] => [[]]
  | c :: rest =>
      if is_space c then
        if prev_ws then split_from true rest
        else [] :: split_from true rest
      else
        match split_from false rest with
        | p :: ps => (c :: p) :: ps
        | [] => [[c]]
        end
  end.

Definition split_ws (text : jsstring) : list jsstring := split_from false text.

(** [w.length > 0] *)
Definition nonempty (w : jsstring) : bool :=
  match w with [] => false | _ => true end.

(** [Math.ceil] *)
Definition Math_ceil (x : Q) : Z := Qceiling x.

(** [s.toUpperCase()] on the ASCII letters; HTTP verbs are ASCII, and the
    Unicode special casing of other letters is not modelled. *)
Definition toUpperCase (s : jsstring) : jsstring :=
  map (fun c => if is_lower c then (c - 32)%N else c) s.

(** [s.endsWith(suffix)] *)
Fixpoint startsWith (prefix s : jsstring) : bool :=
  match prefix, s with
  | [], _ => true
  | p :: prefix', c :: s' => (p =? c)%N && startsWith prefix' s'
  | _ :: _, [] => false
  end.

Definition endsWith (s suffix : jsstring) : bool :=
  startsWith (rev suffix) (rev s).

(** [s.includes(sub)] *)
Fixpoint includes (s sub : jsstring) : bool :=
  startsWith sub s ||
  match s with
  | [] => false
  | _ :: s' => includes s' sub
  end.

(** Number::toString of a non-negative integer: its decimal numeral. *)
Definition Number_toString (n : nat) : jsstring :=
  lit (NilEmpty.string_of_uint (Nat.to_uint n)).

End JS.

Import JS.

(* ------------------------------------------------------------------ *)
(** ** JavaScript objects, JSON values and [JSON.stringify] *)

Module Json.

(** An object as the list of its own enumerable properties in the order
    [Object.entries], [for..in] and [JSON.stringify] visit them: the keys
    that are array indices in ascending order, then the other keys in the
    order of their creation. *)
Definition obj (A : Type) := list (jsstring * A).

(** A JSON value.  A number is an integer, printed as its decimal numeral;
    how ECMAScript prints a number with a fraction is not modelled. *)
Inductive json : Type :=
| JNull
| JBool (b : bool)
| JNumber (n : Z)
| JString (s : jsstring)
| JArray (items : list json)
| JObject (fields : list (jsstring * json)).

Section Objects.
Context {A : Type}.

(** [o[k]], [undefined] when [k] is not a property of [o]. *)
Fixpoint obj_get (k : jsstring) (o : obj A) : option A :=
  match o with
  | [] => None
  | (k', v) :: o' => if str_eqb k' k then Some v else obj_get k o'
  end.

Definition has_key (k : jsstring) (o : obj A) : bool :=
  match obj_get k o with Some _ => true | None => false end.

Fixpoint digits_value (acc : N) (s : jsstring) : option N :=
  match s with
  | [] => Some acc
  | c :: r =>
      if is_digit c then digits_value (acc * 10 + (c - 48))%N r else None
  end.

(** The array index a property key stands for: a canonical decimal numeral
    up to 2^32 - 2. *)
Definition array_index (k : jsstring) : option N :=
  match k with
  | [] => None
  | c :: r =>
      if (c =? 48)%N && nonempty r then None
      else match digits_value 0 k with
           | Some v => if (v <=? 4294967294)%N then Some v else None
           | None => None
           end
  end.

Fixpoint replace_value (k : jsstring) (v : A) (o : obj A) : obj A :=
  match o with
  | [] => []
  | (k', v') :: o' =>
      if str_eqb k' k then (k', v) :: o' else (k', v') :: replace_value k v o'
  end.

Fixpoint insert_index (i : N) (k : jsstring) (v : A) (o : obj A) : obj A :=
  match o with
  | [] => [(k, v)]
  | (k', v') :: o' =>
      match array_index k' with
      | Some j => if (i <? j)%N then (k, v) :: o
                  else (k', v') :: insert_index i k v o'
      | None => (k, v) :: o
      end
  end.

(** [o[k] = v] on an ordinary object: an existing property keeps its place,
    a new one takes the place its key commands.  The key [__proto__] names
    the accessor of [Object.prototype]: assigning to it creates no own
    property. *)
Definition obj_set (k : jsstring) (v : A) (o : obj A) : obj A :=
  if str_eqb k (lit "__proto__") then o
  else if has_key k o then replace_value k v o
  else match array_index k with
       | Some i => insert_index i k v o
       | None => o ++ [(k, v)]
       end.

End Objects.

(** [Object.assign(target, source)]: the own enumerable properties of
    [source], assigned one by one in order. *)
Definition Object_assign {A} (target source : obj A) : obj A :=
  fold_left (fun t kv => obj_set (fst kv) (snd kv) t) source target.

(** The own enumerable properties of whatever value [Object.assign] takes
    as a source: those of an object, the indexed elements of an array, the
    indexed code units of a string, none for the other primitives. *)
Definition indexed {A} (l : list A) : obj A :=
  combine (map Number_toString (seq 0 (length l))) l.

Definition own_properties (v : json) : obj json :=
  match v with
  | JObject fields => fields
  | JArray items => indexed items
  | JString s => indexed (map (fun c => JString [c]) s)
  | _ => []
  end.

(** ToBoolean *)
Definition truthy (v : json) : bool :=
  match v with
  | JNull => false
  | JBool b => b
  | JNumber n => negb (n =? 0)%Z
  | JString s => nonempty s
  | JArray _ | JObject _ => true
  end.

(** [Array.isArray] *)
Definition isArray (v : json) : option (list json) :=
  match v with JArray items => Some items | _ => None end.

(** SameValueZero, the equality of [Set]: primitives by value, objects and
    arrays by identity.  Two values met at two places of a document or of
    an array literal are two objects, never the same one. *)
Definition same_value_zero (a b : json) : bool :=
  match a, b with
  | JNull, JNull => true
  | JBool x, JBool y => Bool.eqb x y
  | JNumber x, JNumber y => (x =? y)%Z
  | JString x, JString y => str_eqb x y
  | _, _ => false
  end.

(** [[...new Set(l)]]: the first occurrence of every value, in order. *)
Fixpoint dedup_from (seen l : list json) : list json :=
  match l with
  | [] => []
  | x :: l' =>
      if existsb (same_value_zero x) seen then dedup_from seen l'
      else x :: dedup_from (seen ++ [x]) l'
  end.

Definition Set_values (l : list json) : list json := dedup_from [] l.

(** *** JSON.stringify(value, null, 2) *)

Definition hex_digit (d : N) : N :=
  if (d <? 10)%N then (48 + d)%N else (87 + d)%N.

(** UnicodeEscape: a backslash, [u] and four lowercase hexadecimal digits. *)
Definition UnicodeEscape (c : N) : jsstring :=
  [92; 117; hex_digit ((c / 4096) mod 16); hex_digit ((c / 256) mod 16);
   hex_digit ((c / 16) mod 16); hex_digit (c mod 16)]%N.

Definition is_high_surrogate (c : N) : bool := in_range 55296 56319 c.
Definition is_low_surrogate (c : N) : bool := in_range 56320 57343 c.

Definition escape_unit (c : N) : jsstring :=
  if (c =? 8)%N then lit "\b"
  else if (c =? 9)%N then lit "\t"
  else if (c =? 10)%N then lit "\n"
  else if (c =? 12)%N then lit "\f"
  else if (c =? 13)%N then lit "\r"
  else if (c =? 34)%N then [92; 34]%N
  else if (c =? 92)%N then [92; 92]%N
  else if (c <? 32)%N || is_high_surrogate c || is_low_surrogate c
       then UnicodeEscape c
  else [c].

(** The characters of a string, escaped; a surrogate pair goes through
    unchanged, a lone surrogate is escaped. *)
Fixpoint quote_units (s : jsstring) : jsstring :=
  match s with
  | [] => []
  | c :: rest =>
      match rest with
      | d :: rest' =>
          if is_high_surrogate c && is_low_surrogate d
          then c :: d :: quote_units rest'
          else escape_unit c ++ quote_units rest
      | [] => escape_unit c
      end
  end.

Definition QuoteJSONString (s : jsstring) : jsstring :=
  QUOTE :: quote_units s ++ [QUOTE].

(** [Array.prototype.join] *)
Fixpoint join (sep : jsstring) (parts : list jsstring) : jsstring :=
  match parts with
  | [] => []
  | [p] => p
  | p :: ps => p ++ sep ++ join sep ps
  end.

Definition NEWLINE : N := 10.
Definition gap : jsstring := lit "  ".

Definition Z_toString (n : Z) : jsstring :=
  lit (NilZero.string_of_int (Z.to_int n)).

(** Wrapping the serialized members of an array or of an object. *)
Definition wrap (open_ close_ indent : jsstring) (partial : list jsstring)
  : jsstring :=
  match partial with
  | [] => open_ ++ close_
  | _ =>
      let stepback := indent in
      let indent' := indent ++ gap in
      open_ ++ NEWLINE :: indent'
      ++ join (lit "," ++ NEWLINE :: indent') partial
      ++ NEWLINE :: stepback ++ close_
  end.

(** SerializeJSONProperty, with the current indentation. *)
Fixpoint SerializeJSONProperty (indent : jsstring) (v : json) {struct v}
  : jsstring :=
  match v with
  | JNull => lit "null"
  | JBool true => lit "true"
  | JBool false => lit "false"
  | JNumber n => Z_toString n
  | JString s => QuoteJSONString s
  | JArray items =>
      wrap (lit "[") (lit "]") indent
        (map (SerializeJSONProperty (indent ++ gap)) items)
  | JObject fields =>
      wrap (lit "{") (lit "}") indent
        (map (fun kv : jsstring * json =>
                let (k, x) := kv in
                QuoteJSONString k ++ lit ": "
                ++ SerializeJSONProperty (indent ++ gap) x)
           fields)
  end.

(** [JSON.stringify(value, null, 2)] *)
Definition JSON_stringify (v : json) : jsstring :=
  SerializeJSONProperty [] v.

End Json.

Import Json.
(* ------------------------------------------------------------------ *)
(** ** [src/token-counter.ts]: the exact tokenizer and its encoder *)

Module TokenCounter.

(** A [Tiktoken] instance, known by the handle the library gave it. *)
Record Tiktoken : Type := { handle : nat }.

(** The module-level [encoder] variable and what the tiktoken library has
    been asked so far: how many encoders [get_encoding] built, and the
    handles [free] released, latest first. *)
Record world : Type := {
  encoder : option Tiktoken;
  built : nat;
  released : list nat
}.

(** The state of a process that has just loaded the module. *)
Definition initial : world :=
  {| encoder := None; built := 0; released := [] |}.

(** A computation over the module state. *)
Definition M (A : Type) : Type := world -> A * world.

Definition ret {A} (a : A) : M A := fun w => (a, w).

Definition bind {A B} (c : M A) (k : A -> M B) : M B :=
  fun w => let (a, w') := c w in k a w'.

Notation "x <- c ;; k" := (bind c (fun x => k))
  (at level 61, c at next level, right associativity).
Notation "c ;;; k" := (bind c (fun _ => k))
  (at level 61, right associativity).

(** [get_encoding('cl100k_base')]: a new instance. *)
Definition get_encoding : M Tiktoken :=
  fun w =>
    ({| handle := built w |},
     {| encoder := encoder w; built := S (built w); released := released w |}).

(** [enc.free()] *)
Definition free (enc : Tiktoken) : M unit :=
  fun w =>
    (tt, {| encoder := encoder w; built := built w;
            released := handle enc :: released w |}).

(** [encoder = v] *)
Definition set_encoder (v : option Tiktoken) : M unit :=
  fun w => (tt, {| encoder := v; built := built w; released := released w |}).

Definition read_encoder : M (option Tiktoken) := fun w => (encoder w, w).

(** [getEncoder()] *)
Definition getEncoder : M Tiktoken :=
  e <- read_encoder ;;
  match e with
  | None =>
      enc <- get_encoding ;;
      set_encoder (Some enc) ;;;
      ret enc
  | Some enc => ret enc
  end.

(** [freeEncoder()] *)
Definition freeEncoder : M unit :=
  e <- read_encoder ;;
  match e with
  | Some enc =>
      free enc ;;;
      set_encoder None
  | None => ret tt
  end.

(** An MCP tool definition. *)
Record MCPTool : Type := {
  name : jsstring;
  description : jsstring;
  inputSchema : obj json
}.

(** The object [JSON.stringify] receives for a tool: its three properties
    in the order every tool of the program is written. *)
Definition tool_json (tool : MCPTool) : json :=
  JObject [(lit "name", JString (name tool));
           (lit "description", JString (description tool));
           (lit "inputSchema", JObject (inputSchema tool))].

Section Vocabulary.

(** [enc.encode(text)] with the cl100k_base vocabulary: the byte-pair
    encoding the tiktoken library computes, the same for every instance. *)
Variable encode : jsstring -> list N.

(** [countTokens(text)] *)
Definition countTokens (text : jsstring) : M Z :=
  enc <- getEncoder ;;
  ret (Z.of_nat (length (encode text))).

(** [countToolTokens(tool)] *)
Definition countToolTokens (tool : MCPTool) : M Z :=
  let toolJson := JSON_stringify (tool_json tool) in
  countTokens toolJson.

End Vocabulary.

(** What a client of the module may do. *)
Inductive call : Type :=
| CallGetEncoder
| CallCountTokens (text : jsstring)
| CallCountToolTokens (tool : MCPTool)
| CallFreeEncoder.

Definition perform (encode : jsstring -> list N) (c : call) (w : world)
  : world :=
  match c with
  | CallGetEncoder => snd (getEncoder w)
  | CallCountTokens text => snd (countTokens encode text w)
  | CallCountToolTokens tool => snd (countToolTokens encode tool w)
  | CallFreeEncoder => snd (freeEncoder w)
  end.



End TokenCounter.

(* ------------------------------------------------------------------ *)
(** ** [src/benchmark.ts] *)

Module Benchmark.

Import TokenCounter.

(** *** Types *)

Record OperationParameter : Type := {
  p_name : jsstring;
  p_in : jsstring;
  p_required : option bool;
  p_schema : option (obj json);
  p_description : option jsstring
}.

Record MediaType : Type := { m_schema : option (obj json) }.

Record RequestBody : Type := {
  rb_required : option bool;
  rb_content : option (obj MediaType)
}.

Record OpenAPIOperation : Type := {
  operationId : option jsstring;
  summary : option jsstring;
  op_description : option jsstring;
  parameters : option (list OperationParameter);
  requestBody : option RequestBody
}.

Record SpecInfo : Type := {
  title : jsstring;
  info_description : option jsstring;
  version : jsstring
}.

Record OpenAPISpec : Type := {
  openapi : jsstring;
  info : SpecInfo;
  paths : obj (obj OpenAPIOperation)
}.

Record BenchmarkResult : Type := {
  scenario : jsstring;
  projectCount : Z;
  totalTools : Z;
  metaToolsTokens : Z;
  fullExpansionTokens : Z;
  tokensSaved : Z;
  percentageSaved : Q;
  costSavedPerReq : Q;
  monthlySaved : Q
}.

(** Cost per 1M input tokens *)
Definition COST_PER_MILLION_TOKENS : Q := 3.0%Q.

(** Estimated monthly requests per user *)
Definition MONTHLY_REQUESTS_PER_USER : Q := 1000%Q.

(** *** Meta-tools definition *)

Definition jstr (s : string) : json := JString (lit s).

Definition META_TOOLS : list MCPTool :=
  [ {| name := lit "list_services";
       description := lit "List all connected services/projects in the organization. Returns service names, slugs, tool counts, and sample tools.";
       inputSchema :=
         [(lit "type", jstr "object");
          (lit "properties", JObject []);
          (lit "required", JArray [])] |};
    {| name := lit "search_tools";
       description := lit "Search for tools by keyword across all connected services. Returns matching tools with names, descriptions, and project info.";
       inputSchema :=
         [(lit "type", jstr "object");
          (lit "properties",
           JObject
             [(lit "query",
               JObject
                 [(lit "type", jstr "string");
                  (lit "description",
                   jstr "Search query to match against tool names and descriptions")]);
              (lit "limit",
               JObject
                 [(lit "type", jstr "number");
                  (lit "description",
                   jstr "Maximum number of results to return (default: 20)")])]);
          (lit "required", JArray [jstr "query"])] |};
    {| name := lit "describe_tools";
       description := lit "Get detailed information and input schemas for specific tools. Use after search_tools to get full schemas before executing.";
       inputSchema :=
         [(lit "type", jstr "object");
          (lit "properties",
           JObject
             [(lit "tools",
               JObject
                 [(lit "type", jstr "array");
                  (lit "items", JObject [(lit "type", jstr "string")]);
                  (lit "description",
                   jstr "Array of tool names to describe (use namespaced format: project-slug/tool-name)")])]);
          (lit "required", JArray [jstr "tools"])] |};
    {| name := lit "execute_tool";
       description :=
         lit "Execute a tool from any connected service in the organization. Use namespaced format: "
         ++ QUOTE :: lit "project-slug/tool-name" ++ QUOTE :: lit ".";
       inputSchema :=
         [(lit "type", jstr "object");
          (lit "properties",
           JObject
             [(lit "tool",
               JObject
                 [(lit "type", jstr "string");
                  (lit "description",
                   JString
                     (lit "The namespaced tool name (e.g., "
                      ++ QUOTE :: lit "linear/create_issue" ++ QUOTE
                      :: lit ", " ++ QUOTE :: lit "github/create_pr"
                      ++ QUOTE :: lit ")"))]);
              (lit "arguments",
               JObject
                 [(lit "type", jstr "object");
                  (lit "additionalProperties", JBool true);
                  (lit "description", jstr "Arguments to pass to the tool")])]);
          (lit "required", JArray [jstr "tool"])] |} ].

(** *** OpenAPI to MCP tool conversion *)

(** [a || b] on an optional string: [a] unless it is missing or empty. *)
Definition or_else (a : option jsstring) (b : jsstring) : jsstring :=
  match a with
  | Some s => if nonempty s then s else b
  | None => b
  end.

(** [schema?.key], [undefined] when the schema or the key is missing. *)
Definition schema_get (key : string) (schema : option (obj json))
  : option json :=
  match schema with
  | Some s => obj_get (lit key) s
  | None => None
  end.

(** A value that is present and truthy. *)
Definition present (v : option json) : option json :=
  match v with
  | Some x => if truthy x then Some x else None
  | None => None
  end.

(** The property a parameter contributes. *)
Definition parameter_property (param : OperationParameter) : json :=
  JObject
    ([(lit "type",
       match present (schema_get "type" (p_schema param)) with
       | Some t => t
       | None => jstr "string"
       end);
      (lit "description",
       JString (or_else (p_description param)
                  (p_name param ++ lit " parameter")))]
     ++ match present (schema_get "enum" (p_schema param)) with
        | Some e => [(lit "enum", e)]
        | None => []
        end).

(** The loop over [op.parameters]: the properties and the required names
    accumulated so far, then the ones of the parameters. *)
Definition add_parameters (params : list OperationParameter)
  (acc : obj json * list json) : obj json * list json :=
  fold_left
    (fun (acc : obj json * list json) param =>
       let (properties, required) := acc in
       (obj_set (p_name param) (parameter_property param) properties,
        match p_required param with
        | Some true => required ++ [JString (p_name param)]
        | _ => required
        end))
    params acc.

(** The request body: the properties and the required names of its
    [application/json] schema. *)
Definition add_request_body (body : option RequestBody)
  (acc : obj json * list json) : obj json * list json :=
  match body with
  | Some {| rb_content := Some content |} =>
      match obj_get (lit "application/json") content with
      | Some {| m_schema := Some schema |} =>
          let (properties, required) := acc in
          let properties :=
            match present (obj_get (lit "properties") schema) with
            | Some props => Object_assign properties (own_properties props)
            | None => properties
            end in
          let required :=
            match present (obj_get (lit "required") schema) with
            | Some r =>
                match isArray r with
                | Some items => required ++ items
                | None => required
                end
            | None => required
            end in
          (properties, required)
      | _ => acc
      end
  | _ => acc
  end.

(** The tool name of an operation. *)
Definition tool_name (path method : jsstring) (op : OpenAPIOperation)
  : jsstring :=
  or_else (operationId op)
    (method ++ lit "_"
     ++ replace_class (fun c => negb (is_alnum c)) UNDERSCORE path).

(** The tool of one operation of a path. *)
Definition operation_tool (path method : jsstring) (op : OpenAPIOperation)
  : MCPTool :=
  let name := tool_name path method op in
  let (properties, required) :=
    add_request_body (requestBody op)
      (match parameters op with
       | Some params => add_parameters params ([], [])
       | None => ([], [])
       end) in
  {| name := name;
     description :=
       or_else (op_description op)
         (or_else (summary op) (toUpperCase method ++ lit " " ++ path));
     inputSchema :=
       [(lit "type", jstr "object");
        (lit "properties", JObject properties);
        (lit "required", JArray (Set_values required))] |}.

(** The inner loop: the operations of one path, the [parameters] entry
    skipped. *)
Definition path_tools (path : jsstring) (methods : obj OpenAPIOperation)
  : list MCPTool :=
  flat_map
    (fun entry : jsstring * OpenAPIOperation =>
       let (method, operation) := entry in
       if str_eqb method (lit "parameters") then []
       else [operation_tool path method operation])
    methods.

(** [openApiToMcpTools(spec)] *)
Definition openApiToMcpTools (spec : OpenAPISpec) : list MCPTool :=
  flat_map
    (fun entry : jsstring * obj OpenAPIOperation =>
       let (path, methods) := entry in path_tools path methods)
    (paths spec).

(** *** Spec loading *)

(** What reading and parsing one file of the directory gives: the document,
    or nothing when [readFileSync] or [JSON.parse] throws or the document
    has no [info]. *)
Definition document := option OpenAPISpec.

(** The [sample-specs] directory: its file names in the order [readdirSync]
    lists them, each with its document; [None] when the directory cannot be
    listed. *)
Definition directory := option (list (jsstring * document)).

Record NamedSpec : Type := { spec_name : jsstring; spec : OpenAPISpec }.

(** The body of the [try] block: the loop stops at the first file that
    throws, with the specs pushed so far. *)
Fixpoint load_files (files : list (jsstring * document))
  (specs : list NamedSpec) : list NamedSpec * bool :=
  match files with
  | [] => (specs, false)
  | (_, Some doc) :: rest =>
      load_files rest
        (specs ++ [{| spec_name := title (info doc); spec := doc |}])
  | (_, None) :: _ => (specs, true)
  end.

(** [loadSampleSpecs()]: the specs, and the warnings written to the error
    stream. *)
Definition WARNING : jsstring :=
  lit "Warning: Could not load sample specs from".

Definition loadSampleSpecs (dir : directory)
  : list NamedSpec * list jsstring :=
  match dir with
  | Some listing =>
      let files :=
        filter (fun f : jsstring * document => endsWith (fst f) (lit ".json"))
          listing in
      let (specs, thrown) := load_files files [] in
      (specs, if thrown then [WARNING] else [])
  | None => ([], [WARNING])
  end.

(** *** Synthetic catalogs *)

Definition pathTemplates (resource : jsstring) : list jsstring :=
  [ lit "/" ++ resource;
    lit "/" ++ resource ++ lit "/{id}";
    lit "/" ++ resource ++ lit "/{id}/details";
    lit "/" ++ resource ++ lit "/{id}/actions";
    lit "/" ++ resource ++ lit "/search" ].

Definition methods : list jsstring :=
  [lit "get"; lit "post"; lit "put"; lit "patch"; lit "delete"].

Definition synthetic_body : RequestBody :=
  {| rb_required := Some true;
     rb_content :=
       Some
         [(lit "application/json",
           {| m_schema :=
                Some
                  [(lit "type", jstr "object");
                   (lit "properties",
                    JObject
                      [(lit "name", JObject [(lit "type", jstr "string")]);
                       (lit "description",
                        JObject [(lit "type", jstr "string")]);
                       (lit "status",
                        JObject
                          [(lit "type", jstr "string");
                           (lit "enum",
                            JArray [jstr "active"; jstr "inactive"])])]);
                   (lit "required", JArray [jstr "name"])] |})] |}.

Definition synthetic_operation (resource path method : jsstring)
  (pathIndex : nat) : OpenAPIOperation :=
  {| operationId :=
       Some (method ++ lit "_" ++ resource ++ lit "_"
             ++ Number_toString pathIndex);
     summary :=
       Some (toUpperCase method ++ lit " operation for " ++ resource);
     op_description :=
       Some (lit "Performs a " ++ method ++ lit " operation on the "
             ++ resource ++ lit " resource.");
     parameters :=
       Some (if includes path (lit "{id}")
             then [{| p_name := lit "id"; p_in := lit "path";
                      p_required := Some true;
                      p_schema := Some [(lit "type", jstr "string")];
                      p_description := None |}]
             else []);
     requestBody :=
       if str_eqb method (lit "post") || str_eqb method (lit "put")
          || str_eqb method (lit "patch")
       then Some synthetic_body
       else None |}.

(** One turn of the loop of [generateSyntheticSpec], for the index [i]. *)
Definition synthetic_step (paths : obj (obj OpenAPIOperation)) (i : nat)
  : obj (obj OpenAPIOperation) :=
  let resource := lit "resource" ++ Number_toString (i / 5) in
  let pathIndex := i mod 5 in
  let path := nth pathIndex (pathTemplates resource) [] in
  let paths :=
    match obj_get path paths with
    | Some _ => paths
    | None => obj_set path [] paths
    end in
  let method := nth (i mod length methods) methods [] in
  let entry := match obj_get path paths with Some m => m | None => [] end in
  obj_set path
    (obj_set method (synthetic_operation resource path method pathIndex) entry)
    paths.

(** [generateSyntheticSpec(endpointCount)] *)
Definition generateSyntheticSpec (endpointCount : nat) : OpenAPISpec :=
  {| openapi := lit "3.0.3";
     info :=
       {| title := lit "Synthetic API (" ++ Number_toString endpointCount
                   ++ lit " endpoints)";
          info_description := None;
          version := lit "1.0.0" |};
     paths := fold_left synthetic_step (seq 0 endpointCount) [] |}.

(** *** Benchmark runner *)

Section Estimator.

Variable encode : jsstring -> list N.

(** [tools.reduce((sum, tool) => sum + countToolTokens(tool), init)], also
    the loop [for (const tool of tools) total += countToolTokens(tool)]. *)
Fixpoint sum_tool_tokens (tools : list MCPTool) (sum : Z) : M Z :=
  match tools with
  | [] => ret sum
  | tool :: rest =>
      n <- countToolTokens encode tool ;;
      sum_tool_tokens rest (sum + n)%Z
  end.

(** The loop over the specs: [totalTools] and [fullExpansionTokens]. *)
Fixpoint expand_all (specs : list NamedSpec) (acc : Z * Z) : M (Z * Z) :=
  match specs with
  | [] => ret acc
  | s :: rest =>
      let (totalTools, fullExpansionTokens) := acc in
      let tools := openApiToMcpTools (spec s) in
      full <- sum_tool_tokens tools fullExpansionTokens ;;
      expand_all rest ((totalTools + Z.of_nat (length tools))%Z, full)
  end.

(** [runBenchmark(scenario, specs)] *)
Definition runBenchmark (scenario : jsstring) (specs : list NamedSpec)
  : M BenchmarkResult :=
  metaToolsTokens <- sum_tool_tokens META_TOOLS 0%Z ;;
  totals <- expand_all specs (0, 0)%Z ;;
  let (totalTools, fullExpansionTokens) := totals : Z * Z in
  let tokensSaved := (fullExpansionTokens - metaToolsTokens)%Z in
  let percentageSaved :=
    if (0 <? fullExpansionTokens)%Z
    then (inject_Z tokensSaved / inject_Z fullExpansionTokens * 100)%Q
    else 0%Q in
  let costSavedPerReq :=
    (inject_Z tokensSaved / 1000000 * COST_PER_MILLION_TOKENS)%Q in
  let monthlySaved := (costSavedPerReq * MONTHLY_REQUESTS_PER_USER)%Q in
  ret {| scenario := scenario;
         projectCount := Z.of_nat (length specs);
         totalTools := totalTools;
         metaToolsTokens := metaToolsTokens;
         fullExpansionTokens := fullExpansionTokens;
         tokensSaved := tokensSaved;
         percentageSaved := percentageSaved;
         costSavedPerReq := costSavedPerReq;
         monthlySaved := monthlySaved |}.

(** The scenarios [main] benchmarks, in order. *)
Definition synthetic_service (label : jsstring) (endpointCount : nat)
  : NamedSpec :=
  {| spec_name := label; spec := generateSyntheticSpec endpointCount |}.

Definition numbered_services (count first step : nat) : list NamedSpec :=
  map (fun i =>
         synthetic_service (lit "Service " ++ Number_toString (i + 1))
           (first + i * step))
    (seq 0 count).

Definition scenarios (sampleSpecs : list NamedSpec)
  : list (jsstring * list NamedSpec) :=
  map (fun s => (lit "Single API (" ++ spec_name s ++ lit ")", [s]))
    sampleSpecs
  ++ (if 2 <=? length sampleSpecs
      then [(lit "Two APIs", firstn 2 sampleSpecs)] else [])
  ++ (if 3 <=? length sampleSpecs
      then [(lit "Three APIs (typical org)", firstn 3 sampleSpecs)] else [])
  ++ [ (lit "Medium org (5 APIs)",
        firstn 3 sampleSpecs
        ++ [synthetic_service (lit "Service A") 50;
            synthetic_service (lit "Service B") 40]);
       (lit "Large org (10 APIs)",
        sampleSpecs ++ numbered_services 7 20 5);
       (lit "Enterprise (20 APIs)",
        sampleSpecs ++ numbered_services 17 25 3) ].

Fixpoint run_scenarios (l : list (jsstring * list NamedSpec))
  : M (list BenchmarkResult) :=
  match l with
  | [] => ret []
  | (label, specs) :: rest =>
      r <- runBenchmark label specs ;;
      rs <- run_scenarios rest ;;
      ret (r :: rs)
  end.

(** [main()]: the results handed to the printer and the warnings written
    on the way; the encoder is released at the end. *)
Definition main (dir : directory)
  : M (list BenchmarkResult * list jsstring) :=
  let (sampleSpecs, warnings) := loadSampleSpecs dir in
  results <- run_scenarios (scenarios sampleSpecs) ;;
  freeEncoder ;;;
  ret (results, warnings).

End Estimator.

(** *** The fair comparison of [printTerminal] *)

Record FairWorkflow : Type := {
  fair_scenario : jsstring;
  metaWorkflowTotal : Z;
  fullWorkflowTotal : Z
}.

(** Approximate tokens for search + describe responses *)
Definition searchDescribeOverhead : Z := 300.

(** The block printed for the first result with more than 100 tools, if
    there is one. *)
Definition fair_comparison (results : list BenchmarkResult)
  : option FairWorkflow :=
  match find (fun r => (100 <? totalTools r)%Z) results with
  | Some largeOrg =>
      Some {| fair_scenario := scenario largeOrg;
              metaWorkflowTotal :=
                (metaToolsTokens largeOrg * 3 + searchDescribeOverhead)%Z;
              fullWorkflowTotal := fullExpansionTokens largeOrg |}
  | None => None
  end.

End Benchmark.
(* ------------------------------------------------------------------ *)
(** ** The heuristic estimator of [src/benchmark-live.ts] *)

Module Live.

(** [countTokens(text)] *)
Definition countTokens (text : jsstring) : Z :=
  let structuralChars :=
    Z.of_nat (length (or_empty (match_class is_structural text))) in
  let words :=
    filter nonempty
      (split_ws
         (replace_class (fun c => negb (is_alnum c || is_space c)) SPACE
            (replace_camel text))) in
  let estimate :=
    Math_ceil (inject_Z structuralChars * 0.5
               + inject_Z (Z.of_nat (length words)) * 1.3)%Q in
  let simpleEstimate :=
    Math_ceil (inject_Z (Z.of_nat (length text)) / 4)%Q in
  Math_ceil (inject_Z (estimate + simpleEstimate) / 2)%Q.

(** Meta-tools token count (constant) *)
Definition META_TOOLS_TOKENS : Z := 426.

(** *** Types *)

Record ServiceSummary : Type := {
  service_name : jsstring;
  slug : jsstring;
  toolCount : Z;
  sampleTools : list jsstring
}.

Record ListServicesResult : Type := {
  services : list ServiceSummary;
  services_total : Z
}.

Record FoundTool : Type := {
  found_name : jsstring;
  found_description : jsstring;
  found_project : jsstring
}.

Record SearchToolsResult : Type := {
  found_tools : list FoundTool;
  found_total : Z
}.

Record DescribedTool : Type := {
  described_name : jsstring;
  described_description : jsstring;
  described_inputSchema : obj json;
  described_project : jsstring
}.

Record DescribeToolsResult : Type := {
  described_tools : list DescribedTool;
  notFound : list jsstring
}.

Record ListedTool : Type := {
  listed_name : jsstring;
  listed_description : jsstring;
  listed_inputSchema : json
}.

Record Content : Type := { content_type : jsstring; text : jsstring }.

(** The MCP endpoint as the benchmark sees it: what each request of the
    client returns, [None] when the request throws (transport failure or
    an error object in the response). *)
Record MCPClient : Type := {
  initialize : option unit;
  listTools : option (list ListedTool);
  callTool : jsstring -> json -> option (list Content)
}.

(** [JSON.parse(text) as T] for the three result types, [None] when the
    text does not parse. *)
Record Parser : Type := {
  parse_services : jsstring -> option ListServicesResult;
  parse_search : jsstring -> option SearchToolsResult;
  parse_describe : jsstring -> option DescribeToolsResult
}.

Inductive Recommendation : Type :=
| StronglyRecommended   (* Meta-tools strongly recommended - significant savings *)
| Recommended           (* Meta-tools recommended - good savings *)
| SlightlyBetter        (* Meta-tools slightly better - marginal savings *)
| FullExpansionBetter.  (* Full expansion may be better for this small setup *)

Record TokenMeasurements : Type := {
  listServicesResponse : Z;
  searchToolsResponse : Z;
  describeToolsResponse : Z;
  metaToolDefinitions : Z;
  fullExpansionEstimate : Z
}.

Record FairComparison : Type := {
  metaToolsWorkflow : Z;
  fullExpansion : Z;
  difference : Z;
  percentageSaved : Q;
  recommendation : Recommendation
}.

(** The result of a live run; the organization slug and the time stamp,
    which no computation reads, are left out. *)
Record LiveBenchmarkResult : Type := {
  services_count : Z;
  services_names : list jsstring;
  tools_total : Z;
  tools_perService : obj Z;
  tokenMeasurements : TokenMeasurements;
  fairComparison : FairComparison
}.

(** *** Live benchmark *)

(** [o >>= k] for code that may throw. *)
Definition and_then {A B} (o : option A) (k : A -> option B) : option B :=
  match o with Some a => k a | None => None end.

Notation "x <- c ;; k" := (and_then c (fun x => k))
  (at level 61, c at next level, right associativity).

(** [raw.content[0]?.text || '{}'] *)
Definition first_text (content : list Content) : jsstring :=
  match content with
  | c :: _ => if nonempty (text c) then text c else lit "{}"
  | [] => lit "{}"
  end.

Definition expectedTools : list jsstring :=
  [lit "list_services"; lit "search_tools"; lit "describe_tools";
   lit "execute_tool"].

(** [expectedTools.every((t) => toolNames.includes(t))], which decides
    only whether a warning is printed. *)
Definition hasMetaTools (toolNames : list jsstring) : bool :=
  forallb (fun t => existsb (str_eqb t) toolNames) expectedTools.

(** The loop that builds the service summary. *)
Definition service_summary (l : list ServiceSummary) : obj Z * Z :=
  fold_left
    (fun (acc : obj Z * Z) service =>
       let (toolsPerService, totalTools) := acc in
       (obj_set (service_name service) (toolCount service) toolsPerService,
        (totalTools + toolCount service)%Z))
    l ([], 0%Z).

Definition avgTokensPerTool : Z := 140.

Definition recommend (percentageSaved : Q) : Recommendation :=
  if Qlt_le_dec 80 percentageSaved then StronglyRecommended
  else if Qlt_le_dec 50 percentageSaved then Recommended
  else if Qlt_le_dec 0 percentageSaved then SlightlyBetter
  else FullExpansionBetter.

(** [runLiveBenchmark(url, token)], given the client built from them. *)
Definition runLiveBenchmark (client : MCPClient) (parser : Parser)
  : option LiveBenchmarkResult :=
  _ <- initialize client ;;
  toolsResult <- listTools client ;;
  (* list_services *)
  listServicesRaw <- callTool client (lit "list_services") (JObject []) ;;
  let listServicesText := first_text listServicesRaw in
  listServicesData <- parse_services parser listServicesText ;;
  let listServicesTokens := countTokens listServicesText in
  let serviceNames := map service_name (services listServicesData) in
  let (toolsPerService, totalTools) :=
    service_summary (services listServicesData) in
  (* search_tools with a broad query *)
  searchToolsRaw <-
    callTool client (lit "search_tools")
      (JObject [(lit "query", JString (lit "create"));
                (lit "limit", JNumber 50)]) ;;
  let searchToolsText := first_text searchToolsRaw in
  searchToolsData <- parse_search parser searchToolsText ;;
  let searchToolsTokens := countTokens searchToolsText in
  (* describe_tools for a sample of tools *)
  let sampleTools :=
    map found_name (firstn 5 (found_tools searchToolsData)) in
  describeToolsRaw <-
    callTool client (lit "describe_tools")
      (JObject [(lit "tools", JArray (map JString sampleTools))]) ;;
  let describeToolsText := first_text describeToolsRaw in
  describeToolsData <- parse_describe parser describeToolsText ;;
  let describeToolsTokens := countTokens describeToolsText in
  (* full expansion estimate *)
  let fullExpansionEstimate := (totalTools * avgTokensPerTool)%Z in
  (* fair comparison *)
  let metaToolsWorkflow :=
    (META_TOOLS_TOKENS * 3 + listServicesTokens + searchToolsTokens
     + describeToolsTokens)%Z in
  let difference := (fullExpansionEstimate - metaToolsWorkflow)%Z in
  let percentageSaved :=
    if (0 <? fullExpansionEstimate)%Z
    then (inject_Z difference / inject_Z fullExpansionEstimate * 100)%Q
    else 0%Q in
  Some
    {| services_count := services_total listServicesData;
       services_names := serviceNames;
       tools_total := totalTools;
       tools_perService := toolsPerService;
       tokenMeasurements :=
         {| listServicesResponse := listServicesTokens;
            searchToolsResponse := searchToolsTokens;
            describeToolsResponse := describeToolsTokens;
            metaToolDefinitions := META_TOOLS_TOKENS;
            fullExpansionEstimate := fullExpansionEstimate |};
       fairComparison :=
         {| metaToolsWorkflow := metaToolsWorkflow;
            fullExpansion := fullExpansionEstimate;
            difference := difference;
            percentageSaved := percentageSaved;
            recommendation := recommend percentageSaved |} |}.

End Live.

(* ------------------------------------------------------------------ *)
(** ** The estimator as the specification words it *)

Module EstimatorSpec.

(** The structural characters: [{ } [ ] : ,] and the double quote. *)
Definition structural_characters : list N := [123; 125; 91; 93; 58; 44; 34]%N.

(** S: the number of occurrences of any of them. *)
Definition S_count (text : jsstring) : Z :=
  Z.of_nat
    (fold_right (fun ch acc => (count_occ N.eq_dec text ch + acc)%nat) 0%nat
       structural_characters).

(** A text with its word boundaries: [None] is a boundary (white space). *)
Definition marked := list (option N).

(** A boundary between a lowercase letter and the uppercase letter that
    immediately follows it. *)
Fixpoint insert_boundaries (text : jsstring) : marked :=
  match text with
  | [] => []
  | a :: rest =>
      match rest with
      | b :: _ =>
          if is_lower a && is_upper b
          then Some a :: None :: insert_boundaries rest
          else Some a :: insert_boundaries rest
      | [] => [Some a]
      end
  end.

(** Every character that is not a letter or a digit becomes white space. *)
Definition blank_non_alphanumerics (m : marked) : marked :=
  map (fun x => match x with
                | Some c => if is_alnum c then Some c else None
                | None => None
                end) m.

(** Splitting on white space: the fragments between the boundaries. *)
Fixpoint fragments (m : marked) : list jsstring :=
  match m with
  | [] => [[]]
  | None :: m' => [] :: fragments m'
  | Some c :: m' =>
      match fragments m' with
      | f :: fs => (c :: f) :: fs
      | [] => [[c]]
      end
  end.

(** W: the number of non-empty word fragments. *)
Definition W_count (text : jsstring) : Z :=
  Z.of_nat
    (length
       (filter nonempty
          (fragments (blank_non_alphanumerics (insert_boundaries text))))).

(** Auxiliary readings of a text, used to relate the two word counts. *)
Definition count_nonempty (l : list jsstring) : nat :=
  length (filter nonempty l).
Definition mark (c : N) : option N := if is_space c then None else Some c.
Definition keep_alnum (c : N) : option N := if is_alnum c then Some c else None.

Definition first_estimate (text : jsstring) : Z :=
  Qceiling (inject_Z (S_count text) * 0.5 + inject_Z (W_count text) * 1.3)%Q.

Definition second_estimate (text : jsstring) : Z :=
  Qceiling (inject_Z (Z.of_nat (length text)) / 4)%Q.

Definition estimate (text : jsstring) : Z :=
  Qceiling (inject_Z (first_estimate text + second_estimate text) / 2)%Q.

End EstimatorSpec.

(* ------------------------------------------------------------------ *)
(** ** Pure readings of the stateful code, used in the statements *)

Module Pure.

Import TokenCounter Benchmark.

(** A vocabulary without merges, for concrete runs: one token for each code
    unit. *)
Definition unit_encode (text : jsstring) : list N := text.

(** The tokens of one tool definition under a vocabulary. *)
Definition tool_tokens (encode : jsstring -> list N) (tool : MCPTool) : Z :=
  Z.of_nat (length (encode (JSON_stringify (tool_json tool)))).

Definition tools_tokens (encode : jsstring -> list N) (tools : list MCPTool)
  : Z :=
  fold_right (fun tool acc => (tool_tokens encode tool + acc)%Z) 0%Z tools.

(** All the tools of a sequence of catalogs. *)
Definition all_tools (specs : list NamedSpec) : list MCPTool :=
  flat_map (fun s => openApiToMcpTools (spec s)) specs.

(** The (path, verb, operation) triples the normalizer processes: every
    entry of every path but the [parameters] entries. *)
Definition operations (s : OpenAPISpec)
  : list (jsstring * jsstring * OpenAPIOperation) :=
  flat_map
    (fun entry : jsstring * obj OpenAPIOperation =>
       flat_map
         (fun m : jsstring * OpenAPIOperation =>
            if str_eqb (fst m) (lit "parameters") then []
            else [(fst entry, fst m, snd m)])
         (snd entry))
    (paths s).

(** The name the specification gives a tool when the operation has no
    usable [operationId]. *)
Definition synthesized_name (path method : jsstring) : jsstring :=
  method ++ lit "_"
  ++ map (fun c => if is_alnum c then c else UNDERSCORE) path.

(** The path, verb and operation the generator writes at index [i]. *)
Definition synthetic_resource (i : nat) : jsstring :=
  lit "resource" ++ Number_toString (i / 5).

Definition synthetic_path (i : nat) : jsstring :=
  nth (i mod 5) (pathTemplates (synthetic_resource i)) [].

Definition synthetic_method (i : nat) : jsstring :=
  nth (i mod 5) methods [].

Definition synthetic_entry (i : nat) : jsstring * obj OpenAPIOperation :=
  (synthetic_path i,
   [(synthetic_method i,
     synthetic_operation (synthetic_resource i) (synthetic_path i)
       (synthetic_method i) (i mod 5))]).

(** What follows the resource in the path of shape [k]. *)
Definition suffix (k : nat) : jsstring :=
  nth k [ []; lit "/{id}"; lit "/{id}/details"; lit "/{id}/actions";
          lit "/search" ] [].

(** A text that does not start with a digit. *)
Definition no_leading_digit (s : jsstring) : Prop :=
  match s with [] => True | c :: _ => is_digit c = false end.





End Pure.

(* ------------------------------------------------------------------ *)
(** ** Concrete inputs *)

Module Inputs.

Import TokenCounter Benchmark Pure.

(** A request body with one [application/json] schema. *)
Definition json_body (schema : obj json) : RequestBody :=
  {| rb_required := Some true;
     rb_content := Some [(lit "application/json", {| m_schema := Some schema |})] |}.

(** An operation that describes a tool: its name as [operationId], its
    description, and its input schema as the schema of the request body. *)
Definition operation_of (tool : MCPTool) : OpenAPIOperation :=
  {| operationId := Some (name tool);
     summary := None;
     op_description := Some (description tool);
     parameters := None;
     requestBody := Some (json_body (inputSchema tool)) |}.

(** A catalog of four operations, one for each meta-tool. *)
Definition meta_catalog : NamedSpec :=
  {| spec_name := lit "Meta API";
     spec :=
       {| openapi := lit "3.0.3";
          info := {| title := lit "Meta API"; info_description := None;
                     version := lit "1.0.0" |};
          paths :=
            map (fun tool =>
                   (lit "/" ++ name tool, [(lit "post", operation_of tool)]))
              META_TOOLS |} |}.

(** An operation whose [operationId] is the empty string. *)
Definition unnamed_operation : OpenAPIOperation :=
  {| operationId := Some [];
     summary := None;
     op_description := None;
     parameters := None;
     requestBody := None |}.

Definition unnamed_catalog : OpenAPISpec :=
  {| openapi := lit "3.0.3";
     info := {| title := lit "Users"; info_description := None;
                version := lit "1.0.0" |};
     paths := [(lit "/users/{id}", [(lit "get", unnamed_operation)])] |}.


(** A string in double quotes. *)
Definition quoted (s : string) : jsstring := QUOTE :: lit s ++ [QUOTE].

(** The responses of an organization with one service of nine tools, none
    of which matches the search. *)
Definition services_text : jsstring :=
  lit "{" ++ quoted "services" ++ lit ":[{" ++ quoted "name" ++ lit ":"
  ++ quoted "Linear" ++ lit "," ++ quoted "slug" ++ lit ":"
  ++ quoted "linear" ++ lit "," ++ quoted "toolCount" ++ lit ":9,"
  ++ quoted "sampleTools" ++ lit ":[]}]," ++ quoted "total" ++ lit ":1}".

Definition search_text : jsstring :=
  lit "{" ++ quoted "tools" ++ lit ":[]," ++ quoted "total" ++ lit ":0}".

Definition describe_text : jsstring :=
  lit "{" ++ quoted "tools" ++ lit ":[]," ++ quoted "notFound" ++ lit ":[]}".

Definition text_content (t : jsstring) : list Live.Content :=
  [{| Live.content_type := lit "text"; Live.text := t |}].

Definition small_client : Live.MCPClient :=
  {| Live.initialize := Some tt;
     Live.listTools :=
       Some (map (fun tool =>
                    {| Live.listed_name := name tool;
                       Live.listed_description := description tool;
                       Live.listed_inputSchema := JObject (inputSchema tool) |})
               META_TOOLS);
     Live.callTool :=
       fun tool _ =>
         if str_eqb tool (lit "list_services")
         then Some (text_content services_text)
         else if str_eqb tool (lit "search_tools")
         then Some (text_content search_text)
         else if str_eqb tool (lit "describe_tools")
         then Some (text_content describe_text)
         else None |}.

(** [JSON.parse] on these three texts. *)
Definition small_parser : Live.Parser :=
  {| Live.parse_services :=
       fun t =>
         if str_eqb t services_text
         then Some {| Live.services :=
                        [{| Live.service_name := lit "Linear";
                            Live.slug := lit "linear";
                            Live.toolCount := 9;
                            Live.sampleTools := [] |}];
                      Live.services_total := 1 |}
         else None;
     Live.parse_search :=
       fun t =>
         if str_eqb t search_text
         then Some {| Live.found_tools := []; Live.found_total := 0 |}
         else None;
     Live.parse_describe :=
       fun t =>
         if str_eqb t describe_text
         then Some {| Live.described_tools := []; Live.notFound := [] |}
         else None |}.

(** What the live benchmark returns for them. *)
Definition small_result : Live.LiveBenchmarkResult :=
  {| Live.services_count := 1;
     Live.services_names := [lit "Linear"];
     Live.tools_total := 9;
     Live.tools_perService := [(lit "Linear", 9%Z)];
     Live.tokenMeasurements :=
       {| Live.listServicesResponse := 28;
          Live.searchToolsResponse := 8;
          Live.describeToolsResponse := 9;
          Live.metaToolDefinitions := 426;
          Live.fullExpansionEstimate := 1260 |};
     Live.fairComparison :=
       {| Live.metaToolsWorkflow := 1323;
          Live.fullExpansion := 1260;
          Live.difference := -63;
          Live.percentageSaved := (inject_Z (-63) / inject_Z 1260 * 100)%Q;
          Live.recommendation := Live.FullExpansionBetter |} |}.

End Inputs.

(* ------------------------------------------------------------------ *)
(** ** More of [src/benchmark-live.ts]: the endpoint URL, the token, the
       OAuth callback and the MCP client *)

Module LiveCli.

(** *** The endpoint URL and the organization slug *)

(** [[^/?]] and [[^/]] *)
Definition slug_char (c : N) : bool := negb ((c =? 47) || (c =? 63))%N.
Definition not_slash (c : N) : bool := negb (c =? 47)%N.

Fixpoint take_while (p : N -> bool) (s : jsstring) : jsstring :=
  match s with
  | c :: rest => if p c then c :: take_while p rest else []
  | [] => []
  end.

Fixpoint drop_while (p : N -> bool) (s : jsstring) : jsstring :=
  match s with
  | c :: rest => if p c then drop_while p rest else s
  | [] => []
  end.

(** [url.match(/\/org\/([^/?]+)/)]: the capture of the leftmost match, the
    longest run of characters other than a slash and a question mark that
    follows [/org/]; a place where that run is empty is no match. *)
Fixpoint match_org (url : jsstring) : option jsstring :=
  match url with
  | [] => None
  | _ :: rest =>
      if startsWith (lit "/org/") url then
        match take_while slug_char (skipn 5 url) with
        | [] => match_org rest
        | capture => Some capture
        end
      else match_org rest
  end.

(** [url.match(/\/org\/([^/?]+)/)?.[1] || 'unknown'] *)
Definition orgSlug_of (url : jsstring) : jsstring :=
  match match_org url with
  | Some capture => capture
  | None => lit "unknown"
  end.

(** [url.replace(/\/org\/[^/]+$/, '')]: the URL without its last segment
    when that segment follows [/org/]. *)
Fixpoint mcpBaseUrl (url : jsstring) : jsstring :=
  match url with
  | [] => []
  | c :: rest =>
      if startsWith (lit "/org/") url && nonempty (skipn 5 url)
         && forallb not_slash (skipn 5 url)
      then []
      else c :: mcpBaseUrl rest
  end.

(** The [switch (env)] of [main]. *)
Definition endpoint_url (env orgSlug : jsstring) : jsstring :=
  if str_eqb env (lit "production")
  then lit "https://mcp.air-lock.ai/org/" ++ orgSlug
  else if str_eqb env (lit "staging")
  then lit "https://mcp.staging.air-lock.ai/org/" ++ orgSlug
  else lit "https://mcp." ++ env ++ lit ".dev.air-lock.ai/org/" ++ orgSlug.

(** The options [parseArgs] returns. *)
Record Values : Type := {
  v_org : option jsstring;
  v_url : option jsstring;
  v_token : option jsstring;
  v_env : option jsstring;
  v_format : option jsstring;
  v_help : bool
}.

(** An option that is present and not the empty string. *)
Definition given (o : option jsstring) : option jsstring :=
  match o with
  | Some s => if nonempty s then Some s else None
  | None => None
  end.

(** The URL and the slug [main] settles on; [None] when neither [--url] nor
    [--org] is given, where [main] prints the usage and exits with 1. *)
Definition resolve_endpoint (values : Values) : option (jsstring * jsstring) :=
  let env := match given (v_env values) with
             | Some e => e
             | None => lit "production"
             end in
  match given (v_url values) with
  | Some url => Some (url, orgSlug_of url)
  | None =>
      match given (v_org values) with
      | Some orgSlug => Some (endpoint_url env orgSlug, orgSlug)
      | None => None
      end
  end.

(** *** The access token *)

(** [s.trim()] *)
Definition trim (s : jsstring) : jsstring :=
  rev (drop_while is_space (rev (drop_while is_space s))).

(** The end of the manual entry of [interactiveAuth]: the token typed at
    the prompt, trimmed; [None] where the code throws [No token provided]. *)
Definition manual_token (answer : jsstring) : option jsstring :=
  if negb (nonempty answer) || negb (nonempty (trim answer))
  then None
  else Some (trim answer).

(** [interactiveAuth]: the token of the OAuth flow when it succeeds
    ([oauth] is what [oauthAuthenticate] returns, [None] when it throws),
    else the token typed at the prompt. *)
Definition interactiveAuth (oauth : option jsstring) (answer : jsstring)
  : option jsstring :=
  match oauth with
  | Some access_token => Some access_token
  | None => manual_token answer
  end.

(** The token [main] runs the benchmark with, [None] where it exits
    with 1. *)
Definition token_for (values : Values) (oauth : option jsstring)
  (answer : jsstring) : option jsstring :=
  match given (v_token values) with
  | Some token => Some token
  | None => interactiveAuth oauth answer
  end.

(** *** The OAuth callback *)

(** A request to the callback server: the path of its URL and the [code],
    [state] and [error] parameters of its query, [None] when absent. *)
Record CallbackRequest : Type := {
  pathname : jsstring;
  q_code : option jsstring;
  q_state : option jsstring;
  q_error : option jsstring
}.

(** What the handler of [startCallbackServer] does with a request: the
    status it answers with, and whether the promise settles. *)
Inductive Settled : Type :=
| Resolved (code state : jsstring)
| Rejected (error : jsstring)
| Pending.

Definition handle_callback (req : CallbackRequest) : Z * Settled :=
  if str_eqb (pathname req) (lit "/callback") then
    match given (q_error req) with
    | Some error => (400%Z, Rejected (lit "OAuth error: " ++ error))
    | None =>
        match given (q_code req), given (q_state req) with
        | Some code, Some state => (200%Z, Resolved code state)
        | _, _ => (400%Z, Pending)
        end
    end
  else (404%Z, Pending).

(** The promise of [startCallbackServer] over the requests that arrive
    before the timeout: settled by the first request that resolves or
    rejects it, after which the server is closed.  A server that fails to
    listen rejects the promise too; the requests are those of a server
    that listens. *)
Fixpoint startCallbackServer (requests : list CallbackRequest) : Settled :=
  match requests with
  | [] => Rejected (lit "Authentication timed out")
  | req :: rest =>
      match snd (handle_callback req) with
      | Pending => startCallbackServer rest
      | settled => settled
      end
  end.

(** The end of [oauthAuthenticate]: the authorization code to exchange for
    a token, once the state that came back is the state that was sent. *)
Definition authorization_code (state : jsstring)
  (requests : list CallbackRequest) : option jsstring :=
  match startCallbackServer requests with
  | Resolved code returnedState =>
      if str_eqb returnedState state then Some code else None
  | _ => None
  end.

(** *** The MCP client *)

Record MCPError : Type := { code : Z; message : jsstring }.

Record MCPResponse : Type := {
  result : option json;
  error : option MCPError
}.

(** What [fetch] resolves with: the status line, the body as text, and the
    body as [response.json()] reads it, [None] when it is not JSON. *)
Record HttpResponse : Type := {
  ok : bool;
  status : Z;
  statusText : jsstring;
  body_text : jsstring;
  body_json : option MCPResponse
}.

(** How a request ends: with [data.result], or with a thrown error. *)
Inductive Outcome : Type :=
| Returned (result : option json)
| Failed (message : jsstring)
| NotJson
| Unreachable.

Record MCPClient : Type := {
  baseUrl : jsstring;
  token : jsstring;
  requestId : Z
}.

(** [baseUrl.replace(/\/$/, '')] *)
Definition strip_trailing_slash (url : jsstring) : jsstring :=
  match rev url with
  | c :: rest => if (c =? 47)%N then rev rest else url
  | [] => url
  end.

(** [new MCPClient(baseUrl, token)] *)
Definition new_client (baseUrl token : jsstring) : MCPClient :=
  {| baseUrl := strip_trailing_slash baseUrl; token := token;
     requestId := 0 |}.

(** [JSON.stringify(value)], without indentation. *)
Fixpoint stringify_compact (v : json) : jsstring :=
  match v with
  | JNull => lit "null"
  | JBool true => lit "true"
  | JBool false => lit "false"
  | JNumber n => Z_toString n
  | JString s => QuoteJSONString s
  | JArray items =>
      lit "[" ++ join (lit ",") (map stringify_compact items) ++ lit "]"
  | JObject fields =>
      lit "{"
      ++ join (lit ",")
           (map (fun kv : jsstring * json =>
                   let (k, x) := kv in
                   QuoteJSONString k ++ lit ":" ++ stringify_compact x)
              fields)
      ++ lit "}"
  end.

(** The body of a request. *)
Definition request_body (id : Z) (method : jsstring) (params : option json)
  : json :=
  JObject
    ([(lit "jsonrpc", JString (lit "2.0"));
      (lit "id", JNumber id);
      (lit "method", JString method)]
     ++ match params with
        | Some p => [(lit "params", p)]
        | None => []
        end).

Section Transport.

(** [fetch(url, { method: 'POST', headers, body })] given the URL, the
    [Authorization] header and the body; [None] when it rejects. *)
Variable fetch : jsstring -> jsstring -> jsstring -> option HttpResponse.

(** What [request] makes of the response: the checks that follow the
    [fetch]. *)
Definition outcome_of (fetched : option HttpResponse) : Outcome :=
  match fetched with
  | None => Unreachable
  | Some response =>
      if negb (ok response) then
        Failed (lit "MCP request failed: " ++ Z_toString (status response)
                ++ lit " " ++ statusText response ++ [NEWLINE]
                ++ body_text response)
      else
        match body_json response with
        | None => NotJson
        | Some data =>
            match error data with
            | Some e =>
                Failed (lit "MCP error: " ++ message e ++ lit " (code: "
                        ++ Z_toString (code e) ++ lit ")")
            | None => Returned (result data)
            end
        end
  end.

(** [client.request(method, params)] *)
Definition request (method : jsstring) (params : option json)
  (client : MCPClient) : Outcome * MCPClient :=
  let id := (requestId client + 1)%Z in
  let client' := {| baseUrl := baseUrl client; token := token client;
                    requestId := id |} in
  (outcome_of
     (fetch (baseUrl client) (lit "Bearer " ++ token client)
        (stringify_compact (request_body id method params))),
   client').

(** [client.initialize()], [client.listTools()], [client.callTool()] *)
Definition initialize : MCPClient -> Outcome * MCPClient :=
  request (lit "initialize")
    (Some (JObject
             [(lit "protocolVersion", JString (lit "2024-11-05"));
              (lit "capabilities", JObject []);
              (lit "clientInfo",
               JObject [(lit "name", JString (lit "airlock-benchmark"));
                        (lit "version", JString (lit "1.0.0"))])])).

Definition listTools : MCPClient -> Outcome * MCPClient :=
  request (lit "tools/list") None.

Definition callTool (name : jsstring) (args : json)
  : MCPClient -> Outcome * MCPClient :=
  request (lit "tools/call")
    (Some (JObject [(lit "name", JString name); (lit "arguments", args)])).

(** A session: the requests a caller makes one after the other, each
    awaited, whatever their outcomes. *)
Inductive Call : Type :=
| Initialize
| ListTools
| CallTool (name : jsstring) (args : json).

Definition perform (c : Call) : MCPClient -> Outcome * MCPClient :=
  match c with
  | Initialize => initialize
  | ListTools => listTools
  | CallTool name args => callTool name args
  end.

Fixpoint session (calls : list Call) (client : MCPClient)
  : list Outcome * MCPClient :=
  match calls with
  | [] => ([], client)
  | c :: rest =>
      let (o, client') := perform c client in
      let (os, client'') := session rest client' in
      (o :: os, client'')
  end.

End Transport.

(** The body the [n]-th request of a session carries, counting from 0. *)
Definition call_body (id : Z) (c : Call) : json :=
  match c with
  | Initialize =>
      request_body id (lit "initialize")
        (Some (JObject
                 [(lit "protocolVersion", JString (lit "2024-11-05"));
                  (lit "capabilities", JObject []);
                  (lit "clientInfo",
                   JObject [(lit "name", JString (lit "airlock-benchmark"));
                            (lit "version", JString (lit "1.0.0"))])]))
  | ListTools => request_body id (lit "tools/list") None
  | CallTool name args =>
      request_body id (lit "tools/call")
        (Some (JObject [(lit "name", JString name);
                        (lit "arguments", args)]))
  end.

(** *** The report *)

(** Whether [printResult] prints the line of the savings, and not the
    line of the extra cost. *)
Definition prints_savings (r : Live.LiveBenchmarkResult) : bool :=
  (0 <? Live.difference (Live.fairComparison r))%Z.

End LiveCli.

(* ------------------------------------------------------------------ *)
(** ** Readings of a tool and of a run, used in the statements *)

Module Readings.

Import TokenCounter Benchmark Pure.

(** The [properties] and the [required] names of a tool. *)
Definition tool_properties (tool : MCPTool) : obj json :=
  match obj_get (lit "properties") (inputSchema tool) with
  | Some (JObject fields) => fields
  | _ => []
  end.

Definition tool_required (tool : MCPTool) : list json :=
  match obj_get (lit "required") (inputSchema tool) with
  | Some (JArray items) => items
  | _ => []
  end.


(** The names of the parameters marked required, in order. *)
Definition required_names (params : list OperationParameter) : list json :=
  flat_map (fun p => match p_required p with
                     | Some true => [JString (p_name p)]
                     | _ => []
                     end) params.

(** The JSON schema of the request body of an operation, if it has one. *)
Definition body_schema (op : OpenAPIOperation) : option (obj json) :=
  match requestBody op with
  | Some {| rb_content := Some content |} =>
      match obj_get (lit "application/json") content with
      | Some {| m_schema := Some schema |} => Some schema
      | _ => None
      end
  | _ => None
  end.

(** The names the request body requires. *)
Definition body_required (op : OpenAPIOperation) : list json :=
  match body_schema op with
  | Some schema =>
      match present (obj_get (lit "required") schema) with
      | Some (JArray items) => items
      | _ => []
      end
  | None => []
  end.

(** The properties the request body declares. *)
Definition body_properties (op : OpenAPIOperation) : obj json :=
  match body_schema op with
  | Some schema =>
      match present (obj_get (lit "properties") schema) with
      | Some props => own_properties props
      | None => []
      end
  | None => []
  end.

(** The parameters an operation declares. *)
Definition declared (op : OpenAPIOperation) : list OperationParameter :=
  match parameters op with Some params => params | None => [] end.

(** Whether the path the generator writes at index [i] names an
    identifier. *)
Definition takes_identifier (i : nat) : bool :=
  (1 <=? i mod 5) && (i mod 5 <=? 3).

(** The characters of a marked text that are not boundaries. *)
Fixpoint somes (m : EstimatorSpec.marked) : nat :=
  match m with
  | [] => 0
  | Some _ :: m' => S (somes m')
  | None :: m' => somes m'
  end.


(** The sum of the tool counts an endpoint reports. *)
Definition reported_tools (l : list Live.ServiceSummary) : Z :=
  fold_right (fun s acc => (Live.toolCount s + acc)%Z) 0%Z l.

End Readings.

(* ------------------------------------------------------------------ *)
(** ** The command line of [src/benchmark.ts] *)

Module StaticCli.






End StaticCli.

(* ------------------------------------------------------------------ *)
(** ** More concrete inputs *)

Module MoreInputs.

Import TokenCounter Benchmark Inputs.

(** The organization of [small_client] behind an endpoint that lists no
    tool and answers a call of any other tool with an empty content. *)
Definition bare_client : Live.MCPClient :=
  {| Live.initialize := Some tt;
     Live.listTools := Some [];
     Live.callTool :=
       fun tool args =>
         match Live.callTool small_client tool args with
         | Some content => Some content
         | None => Some []
         end |}.

(** The operation the generator writes at index 1: a [post] on a path
    with an identifier. *)
Definition create_resource : OpenAPIOperation :=
  synthetic_operation (lit "resource0") (lit "/resource0/{id}") (lit "post")
    1.

(** Two services of an organization. *)
Definition two_services : list Live.ServiceSummary :=
  [{| Live.service_name := lit "Linear"; Live.slug := lit "linear";
      Live.toolCount := 9; Live.sampleTools := [] |};
   {| Live.service_name := lit "GitHub"; Live.slug := lit "github";
      Live.toolCount := 40; Live.sampleTools := [lit "create_issue"] |}].

End MoreInputs.
(* ------------------------------------------------------------------ *)
(** ** String equality *)

Lemma str_eqb_eq a b : str_eqb a b = true <-> a = b.
Proof.
  unfold str_eqb; destruct (jsstring_eq_dec a b); split; congruence.
Qed.

Lemma str_eqb_refl a : str_eqb a a = true.
Proof. now apply str_eqb_eq. Qed.

Lemma str_eqb_neq a b : str_eqb a b = false <-> a <> b.
Proof.
  unfold str_eqb; destruct (jsstring_eq_dec a b); split; congruence.
Qed.

(* ------------------------------------------------------------------ *)
(** ** The heuristic estimator computes the specified formula *)

Module EstimatorProofs.

Import EstimatorSpec.

Lemma alnum_not_space c : is_alnum c = true -> is_space c = false.
Proof.
  unfold is_alnum, is_lower, is_upper, is_digit, is_space, in_range.
  intros H; apply not_true_is_false; intros H'.
  repeat (rewrite orb_true_iff in H || rewrite orb_true_iff in H'
          || rewrite andb_true_iff in H || rewrite andb_true_iff in H'
          || rewrite N.leb_le in H || rewrite N.leb_le in H'
          || rewrite N.eqb_eq in H').
  lia.
Qed.

Lemma lower_alnum c : is_lower c = true -> is_alnum c = true.
Proof. unfold is_alnum; intros ->; reflexivity. Qed.

Lemma upper_not_lower c : is_upper c = true -> is_lower c = false.
Proof.
  unfold is_lower, is_upper, in_range; intros H.
  apply andb_true_iff in H as [H1 H2].
  apply N.leb_le in H1, H2.
  apply andb_false_iff; left; apply N.leb_gt; lia.
Qed.

(** *** Structural characters *)

Lemma match_class_length p text :
  length (or_empty (match_class p text)) = length (filter p text).
Proof.
  unfold match_class.
  destruct (filter p text) as [|m ms]; [reflexivity|].
  simpl; now rewrite length_map.
Qed.

Lemma is_structural_cases c :
  is_structural c = true ->
  c = 123%N \/ c = 125%N \/ c = 91%N \/ c = 93%N \/ c = 58%N \/ c = 44%N
  \/ c = 34%N.
Proof.
  unfold is_structural; intros H.
  repeat (apply orb_true_iff in H as [H|H]);
    apply N.eqb_eq in H; tauto.
Qed.

Lemma occurrences_step c text :
  fold_right (fun ch acc => (count_occ N.eq_dec (c :: text) ch + acc)%nat)
    0%nat structural_characters
  = ((if is_structural c then 1 else 0)
     + fold_right (fun ch acc => (count_occ N.eq_dec text ch + acc)%nat)
         0%nat structural_characters)%nat.
Proof.
  destruct (is_structural c) eqn:E.
  - apply is_structural_cases in E.
    destruct E as [->|[->|[->|[->|[->|[->| ->]]]]]]; simpl; lia.
  - unfold is_structural in E.
    repeat (apply orb_false_iff in E as [E ?]).
    repeat match goal with
           | H : (_ =? _)%N = false |- _ => apply N.eqb_neq in H
           end.
    unfold structural_characters; simpl fold_right.
    repeat match goal with
           | |- context [N.eq_dec c ?a] =>
               destruct (N.eq_dec c a); [congruence|]
           end.
    reflexivity.
Qed.

Lemma S_count_filter text :
  S_count text = Z.of_nat (length (filter is_structural text)).
Proof.
  unfold S_count; f_equal.
  induction text as [|c text IH]; [reflexivity|].
  rewrite occurrences_step, IH; simpl.
  destruct (is_structural c); reflexivity.
Qed.

(** *** Words *)

Lemma replace_camel_step a b r :
  replace_camel (a :: b :: r) =
  if is_lower a && is_upper b
  then a :: SPACE :: replace_camel (b :: r)
  else a :: replace_camel (b :: r).
Proof.
  simpl.
  destruct (is_lower a && is_upper b) eqn:E; [|reflexivity].
  apply andb_true_iff in E as [_ Hb].
  apply upper_not_lower in Hb.
  destruct r as [|c r]; [reflexivity|].
  now rewrite Hb.
Qed.

Lemma camel_boundaries text :
  map keep_alnum (replace_camel text)
  = blank_non_alphanumerics (insert_boundaries text).
Proof.
  induction text as [|a [|b r] IH]; [reflexivity|reflexivity|].
  rewrite replace_camel_step.
  change (insert_boundaries (a :: b :: r))
    with (if is_lower a && is_upper b
          then Some a :: None :: insert_boundaries (b :: r)
          else Some a :: insert_boundaries (b :: r)).
  destruct (is_lower a && is_upper b);
    cbn [map blank_non_alphanumerics]; rewrite IH; reflexivity.
Qed.

Lemma mark_blanked text :
  map mark
    (replace_class (fun c => negb (is_alnum c || is_space c)) SPACE text)
  = map keep_alnum text.
Proof.
  unfold replace_class; rewrite map_map.
  apply map_ext; intros c.
  unfold mark, keep_alnum.
  destruct (is_alnum c) eqn:Ea.
  - cbn [negb orb]. now rewrite (alnum_not_space _ Ea).
  - destruct (is_space c) eqn:Es; cbn [negb orb];
      [now rewrite Es|reflexivity].
Qed.

Lemma split_from_cons b text :
  exists p ps, split_from b text = p :: ps.
Proof.
  revert b; induction text as [|c r IH]; intros b; simpl; eauto.
  destruct (is_space c).
  - destruct b; eauto.
  - destruct (IH false) as (p & ps & ->); eauto.
Qed.

Lemma fragments_cons m : exists f fs, fragments m = f :: fs.
Proof.
  induction m as [|[c|] m IH]; simpl; eauto.
  destruct IH as (f & fs & ->); eauto.
Qed.

Lemma split_fragments text :
  (forall b,
      count_nonempty (split_from b text)
      = count_nonempty (fragments (map mark text)))
  /\ nonempty (hd [] (split_from false text))
     = nonempty (hd [] (fragments (map mark text))).
Proof.
  induction text as [|c r [IHn IHh]]; [split; [intros []|]; reflexivity|].
  cbn [map split_from]; unfold mark at 1 3.
  destruct (is_space c) eqn:Es; cbn [fragments].
  - split; [|reflexivity].
    intros []; [apply IHn|].
    unfold count_nonempty in *; simpl; apply IHn.
  - destruct (split_from_cons false r) as (p & ps & Hs).
    destruct (fragments_cons (map mark r)) as (f & fs & Hf).
    specialize (IHn false); rewrite Hs, Hf in *; simpl in IHh.
    split; [|reflexivity].
    intros _; unfold count_nonempty in *; simpl in *.
    destruct p, f; simpl in *; try discriminate; lia.
Qed.

Lemma words_count text :
  Z.of_nat
    (length
       (filter nonempty
          (split_ws
             (replace_class (fun c => negb (is_alnum c || is_space c)) SPACE
                (replace_camel text)))))
  = W_count text.
Proof.
  unfold W_count, split_ws; f_equal.
  change (count_nonempty
            (split_from false
               (replace_class (fun c => negb (is_alnum c || is_space c))
                  SPACE (replace_camel text)))
          = count_nonempty
              (fragments (blank_non_alphanumerics (insert_boundaries text)))).
  rewrite (proj1 (split_fragments _) false), mark_blanked, camel_boundaries.
  reflexivity.
Qed.

Lemma countTokens_spec text : Live.countTokens text = estimate text.
Proof.
  unfold Live.countTokens, estimate, first_estimate, second_estimate,
    Math_ceil.
  now rewrite match_class_length, words_count, S_count_filter.
Qed.

Lemma Qceiling_nonneg x : (0 <= x)%Q -> (0 <= Qceiling x)%Z.
Proof.
  intros H. change 0%Z with (Qceiling 0%Q). now apply Qceiling_resp_le.
Qed.

Lemma Qplus_nonneg a b : (0 <= a -> 0 <= b -> 0 <= a + b)%Q.
Proof.
  intros Ha Hb. apply (Qplus_le_compat 0 a 0 b Ha Hb).
Qed.

Lemma inject_nat_nonneg n : (0 <= inject_Z (Z.of_nat n))%Q.
Proof.
  change 0%Q with (inject_Z 0); rewrite <- Zle_Qle; lia.
Qed.

Lemma countTokens_nonneg text : (0 <= Live.countTokens text)%Z.
Proof.
  unfold Live.countTokens, Math_ceil.
  apply Qceiling_nonneg, Qle_shift_div_l; [reflexivity|].
  rewrite Qmult_0_l.
  change 0%Q with (inject_Z 0); rewrite <- Zle_Qle.
  apply Z.add_nonneg_nonneg; apply Qceiling_nonneg.
  - apply Qplus_nonneg; apply Qmult_le_0_compat;
      try apply inject_nat_nonneg; discriminate.
  - apply Qle_shift_div_l; [reflexivity|].
    rewrite Qmult_0_l; apply inject_nat_nonneg.
Qed.

End EstimatorProofs.

(* ------------------------------------------------------------------ *)
(** ** The encoder of [src/token-counter.ts] *)

Module TokenCounterProofs.

Import TokenCounter Pure.

Lemma getEncoder_some enc w :
  encoder w = Some enc -> getEncoder w = (enc, w).
Proof.
  unfold getEncoder, bind, read_encoder; intros ->; reflexivity.
Qed.

Lemma getEncoder_none w :
  encoder w = None ->
  getEncoder w =
  ({| handle := built w |},
   {| encoder := Some {| handle := built w |}; built := S (built w);
      released := released w |}).
Proof.
  unfold getEncoder, bind, read_encoder; intros ->; reflexivity.
Qed.

Lemma getEncoder_sets w :
  encoder (snd (getEncoder w)) = Some (fst (getEncoder w)).
Proof.
  destruct (encoder w) as [enc|] eqn:E.
  - rewrite (getEncoder_some _ w E); exact E.
  - rewrite (getEncoder_none w E); reflexivity.
Qed.




Lemma countTokens_eq encode text w :
  countTokens encode text w =
  (Z.of_nat (length (encode text)), snd (getEncoder w)).
Proof.
  unfold countTokens, bind, ret. destruct (getEncoder w); reflexivity.
Qed.








End TokenCounterProofs.

(* ------------------------------------------------------------------ *)
(** ** The benchmark runner *)

Module RunnerProofs.

Import TokenCounter Benchmark Pure TokenCounterProofs.

Section Estimator.

Variable encode : jsstring -> list N.

Lemma countToolTokens_fst tool w :
  fst (countToolTokens encode tool w) = tool_tokens encode tool.
Proof.
  unfold countToolTokens; now rewrite countTokens_eq.
Qed.

Lemma sum_tool_tokens_fst tools : forall sum w,
  fst (sum_tool_tokens encode tools sum w)
  = (sum + tools_tokens encode tools)%Z.
Proof.
  induction tools as [|tool rest IH]; intros sum w; simpl.
  - unfold ret; simpl; lia.
  - unfold bind.
    pose proof (countToolTokens_fst tool w) as H.
    destruct (countToolTokens encode tool w) as [n w']; simpl in H; subst n.
    rewrite IH; lia.
Qed.

Lemma tools_tokens_app a b :
  tools_tokens encode (a ++ b)
  = (tools_tokens encode a + tools_tokens encode b)%Z.
Proof.
  induction a as [|t a IH]; simpl; [reflexivity|]. rewrite IH; lia.
Qed.

Lemma tools_tokens_nonneg tools : (0 <= tools_tokens encode tools)%Z.
Proof.
  induction tools as [|t tools IH]; simpl; [lia|].
  unfold tool_tokens; lia.
Qed.

Lemma expand_all_fst specs : forall totalTools full w,
  fst (expand_all encode specs (totalTools, full) w)
  = ((totalTools + Z.of_nat (length (all_tools specs)))%Z,
     (full + tools_tokens encode (all_tools specs))%Z).
Proof.
  induction specs as [|s rest IH]; intros totalTools full w; simpl.
  - unfold ret; simpl; f_equal; lia.
  - unfold bind.
    pose proof (sum_tool_tokens_fst (openApiToMcpTools (spec s)) full w) as H.
    destruct (sum_tool_tokens encode (openApiToMcpTools (spec s)) full w)
      as [n w']; simpl in H; subst n.
    rewrite IH, length_app, tools_tokens_app; f_equal; lia.
Qed.

(** The result of [runBenchmark], field by field. *)
Lemma runBenchmark_result label specs w :
  let meta := tools_tokens encode META_TOOLS in
  let full := tools_tokens encode (all_tools specs) in
  fst (runBenchmark encode label specs w) =
  {| scenario := label;
     projectCount := Z.of_nat (length specs);
     totalTools := Z.of_nat (length (all_tools specs));
     metaToolsTokens := meta;
     fullExpansionTokens := full;
     tokensSaved := full - meta;
     percentageSaved :=
       if (0 <? full)%Z
       then (inject_Z (full - meta) / inject_Z full * 100)%Q
       else 0%Q;
     costSavedPerReq :=
       (inject_Z (full - meta) / 1000000 * COST_PER_MILLION_TOKENS)%Q;
     monthlySaved :=
       (inject_Z (full - meta) / 1000000 * COST_PER_MILLION_TOKENS
        * MONTHLY_REQUESTS_PER_USER)%Q |}.
Proof.
  intros meta full; unfold runBenchmark, bind.
  pose proof (sum_tool_tokens_fst META_TOOLS 0 w) as Hm.
  destruct (sum_tool_tokens encode META_TOOLS 0 w) as [m w1].
  pose proof (expand_all_fst specs 0 0 w1) as He.
  destruct (expand_all encode specs (0%Z, 0%Z) w1) as [[tt ff] w2].
  simpl in Hm, He; injection He as -> ->; subst m.
  reflexivity.
Qed.

(** *** The state of the encoder along a run *)

Lemma getEncoder_twice w :
  snd (getEncoder (snd (getEncoder w))) = snd (getEncoder w).
Proof.
  now rewrite (getEncoder_some _ _ (getEncoder_sets w)).
Qed.

Lemma countToolTokens_snd tool w :
  snd (countToolTokens encode tool w) = snd (getEncoder w).
Proof.
  unfold countToolTokens; now rewrite countTokens_eq.
Qed.

(** Counting the tokens of tools leaves the state as it was or as the
    first use of the encoder leaves it. *)
Lemma sum_tool_tokens_snd tools : forall sum w,
  snd (sum_tool_tokens encode tools sum w)
  = match tools with [] => w | _ => snd (getEncoder w) end.
Proof.
  induction tools as [|tool rest IH]; intros sum w; [reflexivity|].
  cbn [sum_tool_tokens]; unfold bind.
  pose proof (countToolTokens_snd tool w) as H.
  destruct (countToolTokens encode tool w) as [n w']; cbn [snd] in H; subst w'.
  rewrite IH. destruct rest; [reflexivity|apply getEncoder_twice].
Qed.

Lemma expand_all_snd specs : forall acc w,
  snd (expand_all encode specs acc (snd (getEncoder w)))
  = snd (getEncoder w).
Proof.
  induction specs as [|s rest IH]; intros [totalTools full] w; [reflexivity|].
  cbn [expand_all]; unfold bind.
  pose proof (sum_tool_tokens_snd (openApiToMcpTools (spec s)) full
                (snd (getEncoder w))) as H.
  destruct (sum_tool_tokens encode _ full (snd (getEncoder w))) as [n w'].
  cbn [snd] in H; subst w'.
  destruct (openApiToMcpTools (spec s)); [|rewrite getEncoder_twice];
    apply IH.
Qed.

Lemma runBenchmark_snd label specs w :
  snd (runBenchmark encode label specs w) = snd (getEncoder w).
Proof.
  unfold runBenchmark, bind.
  pose proof (sum_tool_tokens_snd META_TOOLS 0 w) as Hm.
  destruct (sum_tool_tokens encode META_TOOLS 0 w) as [m w1].
  cbn [snd META_TOOLS] in Hm; subst w1.
  pose proof (expand_all_snd specs (0, 0)%Z w) as He.
  destruct (expand_all encode specs (0%Z, 0%Z) (snd (getEncoder w)))
    as [[tt ff] w2].
  exact He.
Qed.

Lemma run_scenarios_snd l : forall w,
  snd (run_scenarios encode l w)
  = match l with [] => w | _ => snd (getEncoder w) end.
Proof.
  induction l as [|[label specs] rest IH]; intros w; [reflexivity|].
  cbn [run_scenarios]; unfold bind.
  pose proof (runBenchmark_snd label specs w) as H.
  destruct (runBenchmark encode label specs w) as [r w']; cbn [snd] in H.
  subst w'. specialize (IH (snd (getEncoder w))).
  destruct (run_scenarios encode rest (snd (getEncoder w))) as [rs w'].
  cbn [snd] in *; subst w'.
  destruct rest; [reflexivity|apply getEncoder_twice].
Qed.

Lemma scenarios_nonempty sampleSpecs : scenarios sampleSpecs <> [].
Proof.
  unfold scenarios; intros H.
  apply app_eq_nil in H as [_ H].
  apply app_eq_nil in H as [_ H].
  apply app_eq_nil in H as [_ H]; discriminate H.
Qed.

Lemma main_snd dir w :
  snd (main encode dir w) = snd (freeEncoder (snd (getEncoder w))).
Proof.
  unfold main. destruct (loadSampleSpecs dir) as [sampleSpecs warnings].
  unfold bind.
  pose proof (run_scenarios_snd (scenarios sampleSpecs) w) as H.
  pose proof (scenarios_nonempty sampleSpecs) as Hne.
  destruct (run_scenarios encode (scenarios sampleSpecs) w) as [rs w'].
  cbn [snd] in H.
  destruct (scenarios sampleSpecs); [congruence|]; subst w'.
  destruct (freeEncoder (snd (getEncoder w))); reflexivity.
Qed.

(** The four definitions print to a non-empty text. *)
Lemma tool_text_nonempty tool : JSON_stringify (tool_json tool) <> [].
Proof. discriminate. Qed.

Lemma meta_tokens_positive :
  (forall text, text <> [] -> encode text <> []) ->
  (0 < tools_tokens encode META_TOOLS)%Z.
Proof.
  intros Hne.
  assert (forall tool, 0 < tool_tokens encode tool)%Z as Hpos.
  { intros tool; unfold tool_tokens.
    specialize (Hne _ (tool_text_nonempty tool)).
    destruct (encode (JSON_stringify (tool_json tool))); [congruence|].
    simpl length; lia. }
  unfold META_TOOLS, tools_tokens, fold_right.
  repeat match goal with
         | |- context [tool_tokens encode ?t] =>
             let H := fresh in
             pose proof (Hpos t) as H;
             generalize dependent (tool_tokens encode t); intros
         end.
  lia.
Qed.

End Estimator.

(** *** Percentages *)

Lemma percentage_lt_100 (saved full : Z) :
  (0 < full)%Z -> (saved < full)%Z ->
  (inject_Z saved / inject_Z full * 100 < 100)%Q.
Proof.
  intros Hf Hs.
  assert (0 < inject_Z full)%Q as Hq
      by (change 0%Q with (inject_Z 0); now rewrite <- Zlt_Qlt).
  setoid_replace 100%Q with (1 * 100)%Q at 2 by reflexivity.
  apply Qmult_lt_compat_r; [reflexivity|].
  apply Qlt_shift_div_r; [exact Hq|].
  rewrite Qmult_1_l, <- Zlt_Qlt; exact Hs.
Qed.

Lemma percentage_zero (saved full : Z) :
  (0 < full)%Z ->
  (inject_Z saved / inject_Z full * 100 == 0)%Q <-> saved = 0%Z.
Proof.
  intros Hf.
  assert (~ inject_Z full == 0)%Q as Hq.
  { change 0%Q with (inject_Z 0); rewrite inject_Z_injective; lia. }
  split.
  - intros H.
    apply Qmult_integral in H as [H|H]; [|discriminate H].
    apply Qmult_integral in H as [H|H].
    + apply (proj1 (inject_Z_injective saved 0)); exact H.
    + exfalso. apply Hq.
      rewrite <- (Qinv_involutive (inject_Z full)), H; reflexivity.
  - intros ->. unfold Qdiv; now rewrite !Qmult_0_l.
Qed.

End RunnerProofs.

(* ------------------------------------------------------------------ *)
(** ** The normalizer and the synthetic catalogs *)

Module NormalizerProofs.

Import TokenCounter Benchmark Pure.

(** *** Tool names *)

Lemma path_tools_operations path ms :
  path_tools path ms =
  map (fun t : jsstring * jsstring * OpenAPIOperation =>
         operation_tool (fst (fst t)) (snd (fst t)) (snd t))
    (flat_map
       (fun m : jsstring * OpenAPIOperation =>
          if str_eqb (fst m) (lit "parameters") then []
          else [(path, fst m, snd m)])
       ms).
Proof.
  unfold path_tools.
  induction ms as [|[method op] ms IH]; [reflexivity|].
  cbn [flat_map fst snd]; rewrite map_app, <- IH.
  destruct (str_eqb method (lit "parameters")); reflexivity.
Qed.

Lemma openApiToMcpTools_operations s :
  openApiToMcpTools s =
  map (fun t : jsstring * jsstring * OpenAPIOperation =>
         operation_tool (fst (fst t)) (snd (fst t)) (snd t))
    (operations s).
Proof.
  unfold openApiToMcpTools, operations.
  induction (paths s) as [|[path ms] ps IH]; [reflexivity|].
  cbn [flat_map fst snd]; rewrite map_app, <- IH, path_tools_operations.
  reflexivity.
Qed.

Lemma operation_tool_name path method op :
  name (operation_tool path method op) = tool_name path method op.
Proof.
  unfold operation_tool.
  destruct (add_request_body _ _); reflexivity.
Qed.

Lemma replace_non_alnum path :
  replace_class (fun c => negb (is_alnum c)) UNDERSCORE path
  = map (fun c => if is_alnum c then c else UNDERSCORE) path.
Proof.
  unfold replace_class; apply map_ext; intros c.
  destruct (is_alnum c); reflexivity.
Qed.

Lemma tool_name_cases path method op :
  tool_name path method op =
  match operationId op with
  | Some id => if nonempty id then id else synthesized_name path method
  | None => synthesized_name path method
  end.
Proof.
  unfold tool_name, or_else, synthesized_name.
  rewrite replace_non_alnum; reflexivity.
Qed.

(** *** Decimal numerals *)

Lemma lit_inj a b : lit a = lit b -> a = b.
Proof.
  revert b; induction a as [|c a IH]; intros [|d b] H; try discriminate;
    [reflexivity|].
  simpl in H; injection H as Hc Hr.
  apply (f_equal ascii_of_N) in Hc; rewrite !ascii_N_embedding in Hc.
  f_equal; auto.
Qed.

Lemma Number_toString_inj a b :
  Number_toString a = Number_toString b -> a = b.
Proof.
  unfold Number_toString; intros H.
  apply lit_inj in H.
  apply (f_equal NilEmpty.uint_of_string) in H.
  rewrite !NilEmpty.usu in H; injection H as H.
  now apply Unsigned.to_uint_inj.
Qed.

Lemma numeral_digits d :
  Forall (fun c => is_digit c = true) (lit (NilEmpty.string_of_uint d)).
Proof.
  induction d; simpl; constructor; auto.
Qed.

Lemma Number_toString_digits n :
  Forall (fun c => is_digit c = true) (Number_toString n).
Proof. apply numeral_digits. Qed.

(** A numeral followed by a text that does not start with a digit is read
    back in one way only. *)
Lemma numeral_then a b s t :
  Forall (fun c => is_digit c = true) a ->
  Forall (fun c => is_digit c = true) b ->
  no_leading_digit s -> no_leading_digit t ->
  a ++ s = b ++ t -> a = b /\ s = t.
Proof.
  intros Ha; revert b; induction Ha as [|x a Hx Ha IH]; intros b Hb Hs Ht H.
  - destruct Hb as [|y b Hy Hb]; [now split|].
    simpl in H; subst s; simpl in Hs; congruence.
  - destruct Hb as [|y b Hy Hb].
    + simpl in H; subst t; simpl in Ht; congruence.
    + simpl in H; injection H as -> H.
      destruct (IH b Hb Hs Ht H) as [-> ->]; now split.
Qed.

(** *** The paths of a synthetic catalog *)

Lemma synthetic_path_shape i :
  synthetic_path i =
  lit "/resource" ++ Number_toString (i / 5) ++ suffix (i mod 5).
Proof.
  unfold synthetic_path, synthetic_resource, pathTemplates, suffix.
  pose proof (Nat.mod_upper_bound i 5 ltac:(discriminate)) as Hk.
  destruct (i mod 5) as [|[|[|[|[|k]]]]]; [..|lia];
    cbn [nth]; rewrite <- ?app_assoc; try reflexivity.
  now rewrite app_nil_r.
Qed.

Lemma suffix_no_digit k : no_leading_digit (suffix k).
Proof.
  unfold suffix.
  destruct k as [|[|[|[|[|k]]]]]; simpl; auto.
  destruct k; simpl; auto.
Qed.

Lemma suffix_inj j k : j < 5 -> k < 5 -> suffix j = suffix k -> j = k.
Proof.
  intros Hj Hk.
  destruct j as [|[|[|[|[|j]]]]]; [..|lia];
    destruct k as [|[|[|[|[|k]]]]]; try lia;
    intros H; try reflexivity; discriminate H.
Qed.

Lemma synthetic_path_inj i j : synthetic_path i = synthetic_path j -> i = j.
Proof.
  rewrite !synthetic_path_shape; intros H.
  apply app_inv_head in H.
  apply numeral_then in H as [Hd Hs];
    auto using Number_toString_digits, suffix_no_digit.
  apply Number_toString_inj in Hd.
  apply suffix_inj in Hs; try (apply Nat.mod_upper_bound; discriminate).
  rewrite (Nat.div_mod_eq i 5), (Nat.div_mod_eq j 5); congruence.
Qed.

Lemma synthetic_path_plain i :
  str_eqb (synthetic_path i) (lit "__proto__") = false
  /\ array_index (synthetic_path i) = None.
Proof.
  rewrite synthetic_path_shape; split.
  - apply str_eqb_neq; discriminate.
  - reflexivity.
Qed.

Lemma synthetic_method_plain i (op : OpenAPIOperation) :
  obj_set (synthetic_method i) op [] = [(synthetic_method i, op)]
  /\ str_eqb (synthetic_method i) (lit "parameters") = false.
Proof.
  unfold synthetic_method, methods.
  pose proof (Nat.mod_upper_bound i 5 ltac:(discriminate)) as Hk.
  destruct (i mod 5) as [|[|[|[|[|k]]]]]; [..|lia]; split; reflexivity.
Qed.

(** *** Objects that grow at the end *)

Section Appending.
Context {A : Type}.

Lemma obj_get_absent k (o : obj A) :
  ~ In k (map fst o) -> obj_get k o = None.
Proof.
  induction o as [|[k' v] o IH]; simpl; intros H; [reflexivity|].
  destruct (str_eqb k' k) eqn:E.
  - apply str_eqb_eq in E; tauto.
  - apply IH; tauto.
Qed.

Lemma obj_get_last k v (o : obj A) :
  ~ In k (map fst o) -> obj_get k (o ++ [(k, v)]) = Some v.
Proof.
  induction o as [|[k' v'] o IH]; simpl; intros H.
  - now rewrite str_eqb_refl.
  - destruct (str_eqb k' k) eqn:E.
    + apply str_eqb_eq in E; tauto.
    + apply IH; tauto.
Qed.

Lemma replace_value_last k v v' (o : obj A) :
  ~ In k (map fst o) ->
  replace_value k v' (o ++ [(k, v)]) = o ++ [(k, v')].
Proof.
  induction o as [|[k' w] o IH]; simpl; intros H.
  - now rewrite str_eqb_refl.
  - destruct (str_eqb k' k) eqn:E.
    + apply str_eqb_eq in E; tauto.
    + rewrite IH; tauto.
Qed.

Lemma obj_set_new k v (o : obj A) :
  str_eqb k (lit "__proto__") = false -> array_index k = None ->
  ~ In k (map fst o) ->
  obj_set k v o = o ++ [(k, v)].
Proof.
  intros Hp Hi Hn; unfold obj_set, has_key.
  now rewrite Hp, (obj_get_absent _ _ Hn), Hi.
Qed.

Lemma obj_set_last k v v' (o : obj A) :
  str_eqb k (lit "__proto__") = false ->
  ~ In k (map fst o) ->
  obj_set k v' (o ++ [(k, v)]) = o ++ [(k, v')].
Proof.
  intros Hp Hn; unfold obj_set, has_key.
  now rewrite Hp, (obj_get_last _ v _ Hn), replace_value_last.
Qed.

End Appending.

(** *** The generator writes one new path for every index *)

Lemma synthetic_path_fresh n :
  ~ In (synthetic_path n) (map fst (map synthetic_entry (seq 0 n))).
Proof.
  rewrite map_map; intros H.
  apply in_map_iff in H as (i & Hi & Hin).
  apply in_seq in Hin; simpl in Hi.
  apply synthetic_path_inj in Hi; lia.
Qed.

Lemma synthetic_step_appends n :
  synthetic_step (map synthetic_entry (seq 0 n)) n
  = map synthetic_entry (seq 0 n) ++ [synthetic_entry n].
Proof.
  pose proof (synthetic_path_fresh n) as Hfresh.
  destruct (synthetic_path_plain n) as [Hp Hi].
  unfold synthetic_step.
  change (nth (n mod 5) (pathTemplates (lit "resource" ++ Number_toString (n / 5))) [])
    with (synthetic_path n).
  change (nth (n mod length methods) methods []) with (synthetic_method n).
  change (lit "resource" ++ Number_toString (n / 5))
    with (synthetic_resource n).
  cbv zeta.
  rewrite (obj_get_absent _ _ Hfresh), (obj_set_new _ _ _ Hp Hi Hfresh),
    (obj_get_last _ _ _ Hfresh), (obj_set_last _ _ _ _ Hp Hfresh),
    (proj1 (synthetic_method_plain n _)).
  reflexivity.
Qed.

Lemma generated_paths n :
  paths (generateSyntheticSpec n) = map synthetic_entry (seq 0 n).
Proof.
  unfold generateSyntheticSpec; cbn [paths].
  induction n as [|n IH]; [reflexivity|].
  rewrite seq_S, fold_left_app, IH; cbn [fold_left plus].
  rewrite synthetic_step_appends, map_app; reflexivity.
Qed.

Lemma generated_operations n :
  operations (generateSyntheticSpec n) =
  map (fun i =>
         (synthetic_path i, synthetic_method i,
          synthetic_operation (synthetic_resource i) (synthetic_path i)
            (synthetic_method i) (i mod 5)))
    (seq 0 n).
Proof.
  unfold operations; rewrite generated_paths.
  induction (seq 0 n) as [|i l IH]; [reflexivity|].
  cbn [map flat_map]; rewrite IH.
  cbn [synthetic_entry fst snd flat_map].
  now rewrite (proj2 (synthetic_method_plain i
                        (synthetic_operation (synthetic_resource i)
                           (synthetic_path i) (synthetic_method i)
                           (i mod 5)))).
Qed.

End NormalizerProofs.

(* ------------------------------------------------------------------ *)
(** ** Spec loading *)

Module LoaderProofs.

Import TokenCounter Benchmark Pure.






End LoaderProofs.

(* ------------------------------------------------------------------ *)
(** ** The live benchmark *)

Module LiveProofs.

Import Live.

Lemma runLiveBenchmark_accounts client parser r :
  runLiveBenchmark client parser = Some r ->
  metaToolsWorkflow (fairComparison r)
  = (META_TOOLS_TOKENS * 3
     + listServicesResponse (tokenMeasurements r)
     + searchToolsResponse (tokenMeasurements r)
     + describeToolsResponse (tokenMeasurements r))%Z
  /\ fullExpansion (fairComparison r) = (tools_total r * avgTokensPerTool)%Z
  /\ difference (fairComparison r)
     = (fullExpansion (fairComparison r)
        - metaToolsWorkflow (fairComparison r))%Z
  /\ metaToolDefinitions (tokenMeasurements r) = META_TOOLS_TOKENS.
Proof.
  unfold runLiveBenchmark, and_then.
  destruct (initialize client); [|discriminate].
  destruct (listTools client); [|discriminate].
  destruct (callTool client (lit "list_services") _); [|discriminate].
  destruct (parse_services parser _); [|discriminate].
  destruct (service_summary _) as [perService total].
  destruct (callTool client (lit "search_tools") _); [|discriminate].
  destruct (parse_search parser _); [|discriminate].
  destruct (callTool client (lit "describe_tools") _); [|discriminate].
  destruct (parse_describe parser _); [|discriminate].
  intros H; injection H as <-.
  cbn [fairComparison tokenMeasurements metaToolsWorkflow fullExpansion
       difference listServicesResponse searchToolsResponse
       describeToolsResponse metaToolDefinitions tools_total].
  repeat split.
Qed.

(** The three measurements of a live run are the heuristic estimates of
    the texts the endpoint answered with. *)
Lemma runLiveBenchmark_measures client parser r :
  runLiveBenchmark client parser = Some r ->
  exists raw1 args2 raw2 args3 raw3,
    callTool client (lit "list_services") (JObject []) = Some raw1
    /\ callTool client (lit "search_tools") args2 = Some raw2
    /\ callTool client (lit "describe_tools") args3 = Some raw3
    /\ listServicesResponse (tokenMeasurements r)
       = countTokens (first_text raw1)
    /\ searchToolsResponse (tokenMeasurements r)
       = countTokens (first_text raw2)
    /\ describeToolsResponse (tokenMeasurements r)
       = countTokens (first_text raw3).
Proof.
  unfold runLiveBenchmark, and_then.
  destruct (initialize client); [|discriminate].
  destruct (listTools client); [|discriminate].
  destruct (callTool client (lit "list_services") _) as [raw1|] eqn:E1;
    [|discriminate].
  destruct (parse_services parser _); [|discriminate].
  destruct (service_summary _) as [perService total].
  destruct (callTool client (lit "search_tools") _) as [raw2|] eqn:E2;
    [|discriminate].
  destruct (parse_search parser _) as [found|]; [|discriminate].
  destruct (callTool client (lit "describe_tools") _) as [raw3|] eqn:E3;
    [|discriminate].
  destruct (parse_describe parser _); [|discriminate].
  intros H; injection H as <-.
  cbn [tokenMeasurements listServicesResponse searchToolsResponse
       describeToolsResponse].
  eexists raw1, _, raw2, _, raw3.
  repeat split; eassumption.
Qed.

End LiveProofs.

(* ------------------------------------------------------------------ *)
(** ** Further properties of the code *)

(* ------------------------------------------------------------------ *)
(** ** Objects: what an assignment changes *)

Module ObjectProofs.

Section Lookup.
Context {A : Type}.

Lemma obj_get_none k (o : obj A) :
  obj_get k o = None <-> ~ In k (map fst o).
Proof.
  induction o as [|[k' v] o IH]; simpl; [tauto|].
  destruct (str_eqb k' k) eqn:E.
  - apply str_eqb_eq in E; split; [discriminate|tauto].
  - apply str_eqb_neq in E; rewrite IH; tauto.
Qed.

Lemma obj_get_app k (o o' : obj A) :
  obj_get k (o ++ o') =
  match obj_get k o with Some v => Some v | None => obj_get k o' end.
Proof.
  induction o as [|[k' v] o IH]; simpl; [reflexivity|].
  destruct (str_eqb k' k); auto.
Qed.

Lemma obj_get_replace_same k v (o : obj A) :
  has_key k o = true -> obj_get k (replace_value k v o) = Some v.
Proof.
  unfold has_key; induction o as [|[k' v'] o IH]; simpl; [discriminate|].
  destruct (str_eqb k' k) eqn:E; simpl; rewrite E; auto.
Qed.

Lemma obj_get_replace_other k k' v (o : obj A) :
  k' <> k -> obj_get k' (replace_value k v o) = obj_get k' o.
Proof.
  intros Hne; induction o as [|[k0 v0] o IH]; simpl; [reflexivity|].
  destruct (str_eqb k0 k) eqn:E; simpl.
  - apply str_eqb_eq in E; subst k0.
    destruct (str_eqb k k') eqn:E'; [|reflexivity].
    apply str_eqb_eq in E'; congruence.
  - rewrite IH; reflexivity.
Qed.

Lemma obj_get_insert_same i k v (o : obj A) :
  obj_get k o = None -> obj_get k (insert_index i k v o) = Some v.
Proof.
  induction o as [|[k' v'] o IH]; simpl; intros H.
  - now rewrite str_eqb_refl.
  - destruct (str_eqb k' k) eqn:E; [discriminate|].
    destruct (array_index k') as [j|]; [destruct (i <? j)%N|]; simpl;
      rewrite ?str_eqb_refl, ?E; auto.
Qed.

Lemma obj_get_insert_other i k k' v (o : obj A) :
  k' <> k -> obj_get k' (insert_index i k v o) = obj_get k' o.
Proof.
  intros Hne.
  assert (str_eqb k k' = false) as Hk by (apply str_eqb_neq; congruence).
  induction o as [|[k0 v0] o IH]; simpl; [now rewrite Hk|].
  destruct (array_index k0) as [j|]; [destruct (i <? j)%N|]; simpl;
    rewrite ?Hk, ?IH; reflexivity.
Qed.

(** Reading a property that was just assigned gives the value assigned,
    unless the key is [__proto__]. *)
Lemma obj_get_set_same k v (o : obj A) :
  str_eqb k (lit "__proto__") = false -> obj_get k (obj_set k v o) = Some v.
Proof.
  intros Hp; unfold obj_set; rewrite Hp.
  destruct (has_key k o) eqn:Hk; [now apply obj_get_replace_same|].
  assert (obj_get k o = None) as Hn
      by (unfold has_key in Hk; destruct (obj_get k o); congruence).
  destruct (array_index k); [now apply obj_get_insert_same|].
  rewrite obj_get_app, Hn; simpl; now rewrite str_eqb_refl.
Qed.

(** An assignment leaves the other properties as they are. *)
Lemma obj_get_set_other k k' v (o : obj A) :
  k' <> k -> obj_get k' (obj_set k v o) = obj_get k' o.
Proof.
  intros Hne; unfold obj_set.
  destruct (str_eqb k (lit "__proto__")); [reflexivity|].
  destruct (has_key k o); [now apply obj_get_replace_other|].
  destruct (array_index k); [now apply obj_get_insert_other|].
  rewrite obj_get_app. destruct (obj_get k' o); [reflexivity|].
  simpl. destruct (str_eqb k k') eqn:E; [|reflexivity].
  apply str_eqb_eq in E; congruence.
Qed.

Lemma has_key_set k k' v (o : obj A) :
  has_key k' o = true -> has_key k' (obj_set k v o) = true.
Proof.
  intros H. destruct (jsstring_eq_dec k' k) as [->|Hne].
  - destruct (str_eqb k (lit "__proto__")) eqn:Hp.
    + unfold obj_set; now rewrite Hp.
    + unfold has_key; now rewrite obj_get_set_same.
  - unfold has_key in *; now rewrite obj_get_set_other.
Qed.

Lemma has_key_assign k (t src : obj A) :
  has_key k t = true -> has_key k (Object_assign t src) = true.
Proof.
  unfold Object_assign; revert t.
  induction src as [|[k' v'] src IH]; intros t H; simpl; [exact H|].
  apply IH, has_key_set, H.
Qed.

Lemma obj_get_assign_absent k (t src : obj A) :
  ~ In k (map fst src) -> obj_get k (Object_assign t src) = obj_get k t.
Proof.
  unfold Object_assign; revert t.
  induction src as [|[k' v'] src IH]; intros t H; simpl in *; [reflexivity|].
  rewrite IH by tauto. apply obj_get_set_other; intros ->; tauto.
Qed.

(** [Object.assign] gives the target every property of a source whose keys
    are distinct, [__proto__] apart. *)
Lemma obj_get_assign k v (t src : obj A) :
  NoDup (map fst src) -> In (k, v) src ->
  str_eqb k (lit "__proto__") = false ->
  obj_get k (Object_assign t src) = Some v.
Proof.
  intros Hnd Hin Hp; revert t.
  induction src as [|[k' v'] src IH]; intros t; [destruct Hin|].
  simpl in Hnd; inversion Hnd as [|? ? Hn Hnd']; subst.
  destruct Hin as [Heq|Hin].
  - injection Heq as -> ->.
    change (Object_assign t ((k, v) :: src))
      with (Object_assign (obj_set k v t) src).
    rewrite obj_get_assign_absent by exact Hn.
    now apply obj_get_set_same.
  - change (Object_assign t ((k', v') :: src))
      with (Object_assign (obj_set k' v' t) src).
    now apply IH.
Qed.

End Lookup.

End ObjectProofs.

(* ------------------------------------------------------------------ *)
(** ** The input schema of a tool *)

Module SchemaProofs.

Import TokenCounter Benchmark Pure Readings ObjectProofs NormalizerProofs.

(** *** The values of a [Set] *)

Lemma dedup_from_incl seen l x :
  In x (dedup_from seen l) -> In x l.
Proof.
  revert seen; induction l as [|y l IH]; intros seen; simpl; [tauto|].
  destruct (existsb (same_value_zero y) seen); [eauto|].
  intros [->|H]; eauto.
Qed.

Lemma same_value_zero_sym a b : same_value_zero a b = same_value_zero b a.
Proof.
  destruct a, b; simpl; try reflexivity.
  - now destruct b, b0.
  - apply Z.eqb_sym.
  - unfold str_eqb.
    destruct (jsstring_eq_dec s s0), (jsstring_eq_dec s0 s); congruence.
Qed.

Lemma dedup_from_fresh seen l x y :
  In y seen -> In x (dedup_from seen l) -> same_value_zero x y = false.
Proof.
  revert seen; induction l as [|z l IH]; intros seen Hy; simpl; [tauto|].
  destruct (existsb (same_value_zero z) seen) eqn:E; [eauto|].
  intros [<-|H].
  - destruct (same_value_zero z y) eqn:Ez; [|reflexivity].
    assert (existsb (same_value_zero z) seen = true)
      by (apply existsb_exists; eauto).
    congruence.
  - apply (IH (seen ++ [z])); [apply in_or_app; now left|exact H].
Qed.

(** No two values of the result are the same value. *)
Lemma dedup_from_distinct seen l i j x y :
  i < j ->
  nth_error (dedup_from seen l) i = Some x ->
  nth_error (dedup_from seen l) j = Some y ->
  same_value_zero x y = false.
Proof.
  revert seen i j; induction l as [|z l IH]; intros seen i j Hij; simpl.
  - destruct i; discriminate.
  - destruct (existsb (same_value_zero z) seen); [now apply IH|].
    destruct j as [|j]; [lia|]. destruct i as [|i]; simpl.
    + intros [= <-] Hy. apply nth_error_In in Hy.
      rewrite same_value_zero_sym.
      apply (dedup_from_fresh (seen ++ [z]) l y z);
        [apply in_or_app; right; now left|exact Hy].
    + apply IH; lia.
Qed.

(** A text that is in the list is in the result. *)
Lemma dedup_from_keeps seen l s :
  In (JString s) l ->
  existsb (same_value_zero (JString s)) seen = false ->
  In (JString s) (dedup_from seen l).
Proof.
  revert seen; induction l as [|z l IH]; intros seen Hin Hs; [destruct Hin|].
  simpl. destruct (existsb (same_value_zero z) seen) eqn:E.
  - destruct Hin as [->|Hin]; [congruence|]. now apply IH.
  - destruct Hin as [->|Hin]; [now left|].
    destruct (same_value_zero (JString s) z) eqn:Ez.
    + left. destruct z; simpl in Ez; try discriminate.
      apply str_eqb_eq in Ez; now subst.
    + right. apply IH; [exact Hin|].
      rewrite existsb_app, Hs; cbn [existsb orb]; now rewrite Ez.
Qed.

(** *** The two loops of [openApiToMcpTools] *)

Lemma add_parameters_required params : forall properties required,
  snd (add_parameters params (properties, required))
  = required ++ required_names params.
Proof.
  unfold add_parameters.
  induction params as [|p params IH]; intros properties required; simpl.
  - now rewrite app_nil_r.
  - rewrite IH. destruct (p_required p) as [[|]|]; simpl;
      now rewrite <- ?app_assoc.
Qed.

Lemma add_parameters_keeps params : forall k properties required,
  has_key k properties = true ->
  has_key k (fst (add_parameters params (properties, required))) = true.
Proof.
  unfold add_parameters.
  induction params as [|p params IH]; intros k properties required H;
    simpl; [exact H|].
  apply IH, has_key_set, H.
Qed.

Lemma add_parameters_keys params : forall p properties required,
  In p params -> str_eqb (p_name p) (lit "__proto__") = false ->
  has_key (p_name p) (fst (add_parameters params (properties, required)))
  = true.
Proof.
  induction params as [|q params IH]; intros p properties required Hin Hp;
    [destruct Hin|].
  change (add_parameters (q :: params) (properties, required))
    with (add_parameters params
            (obj_set (p_name q) (parameter_property q) properties,
             match p_required q with
             | Some true => required ++ [JString (p_name q)]
             | _ => required
             end)).
  destruct Hin as [->|Hin]; [|now apply IH].
  apply add_parameters_keeps. unfold has_key.
  now rewrite obj_get_set_same.
Qed.

Lemma add_request_body_eq op properties required :
  add_request_body (requestBody op) (properties, required)
  = (Object_assign properties (body_properties op),
     required ++ body_required op).
Proof.
  unfold add_request_body, body_properties, body_required, body_schema.
  destruct (requestBody op) as [[r [content|]]|];
    try (now rewrite app_nil_r).
  destruct (obj_get (lit "application/json") content) as [[[schema|]]|];
    try (now rewrite app_nil_r).
  f_equal.
  - destruct (present (obj_get (lit "properties") schema)); reflexivity.
  - destruct (present (obj_get (lit "required") schema)) as [r'|];
      [|now rewrite app_nil_r].
    destruct r'; simpl; now rewrite ?app_nil_r.
Qed.

Lemma operation_tool_schema path method op :
  inputSchema (operation_tool path method op)
  = [(lit "type", jstr "object");
     (lit "properties",
      JObject
        (Object_assign (fst (add_parameters (declared op) ([], [])))
           (body_properties op)));
     (lit "required",
      JArray (Set_values (required_names (declared op) ++ body_required op)))].
Proof.
  unfold operation_tool, declared.
  destruct (parameters op) as [params|].
  - match goal with
    | |- context [add_parameters params ?a] =>
        pose proof (add_parameters_required params [] []) as Hr;
        change (add_parameters params ([], [])) with (add_parameters params a)
          in Hr;
        destruct (add_parameters params a) as [properties required]
    end.
    rewrite add_request_body_eq.
    simpl in Hr; subst required. reflexivity.
  - rewrite add_request_body_eq; reflexivity.
Qed.


End SchemaProofs.

Module SchemaKeys.

Import TokenCounter Benchmark Pure Readings ObjectProofs NormalizerProofs.
Import SchemaProofs.

Lemma same_value_zero_eq a b : same_value_zero a b = true -> a = b.
Proof.
  destruct a, b; simpl; try discriminate; intros H; try reflexivity.
  - apply Bool.eqb_prop in H; now subst.
  - apply Z.eqb_eq in H; now subst.
  - apply str_eqb_eq in H; now subst.
Qed.

Lemma dedup_from_keeps_all seen l x :
  In x l -> existsb (same_value_zero x) seen = false ->
  In x (dedup_from seen l).
Proof.
  revert seen; induction l as [|z l IH]; intros seen Hin Hs; [destruct Hin|].
  simpl. destruct (existsb (same_value_zero z) seen) eqn:E.
  - destruct Hin as [->|Hin]; [congruence|]. now apply IH.
  - destruct Hin as [->|Hin]; [now left|].
    destruct (same_value_zero x z) eqn:Ez.
    + left. symmetry; now apply same_value_zero_eq.
    + right. apply IH; [exact Hin|].
      rewrite existsb_app, Hs; cbn [existsb orb]; now rewrite Ez.
Qed.

Lemma dedup_from_pairs seen l :
  ForallOrdPairs (fun x y => same_value_zero x y = false)
    (dedup_from seen l).
Proof.
  revert seen; induction l as [|z l IH]; intros seen; simpl; [constructor|].
  destruct (existsb (same_value_zero z) seen); [apply IH|].
  constructor; [|apply IH].
  apply Forall_forall; intros y Hy.
  rewrite same_value_zero_sym.
  apply (dedup_from_fresh (seen ++ [z]) l y z);
    [apply in_or_app; right; now left|exact Hy].
Qed.

Lemma tool_required_eq path method op :
  tool_required (operation_tool path method op)
  = Set_values (required_names (declared op) ++ body_required op).
Proof.
  unfold tool_required; now rewrite operation_tool_schema.
Qed.

Lemma tool_properties_eq path method op :
  tool_properties (operation_tool path method op)
  = Object_assign (fst (add_parameters (declared op) ([], [])))
      (body_properties op).
Proof.
  unfold tool_properties; now rewrite operation_tool_schema.
Qed.

(** *** The keys an assignment can create *)

Section Keys.
Context {A : Type}.

Lemma replace_value_keys k v (o : obj A) :
  map fst (replace_value k v o) = map fst o.
Proof.
  induction o as [|[k' v'] o IH]; simpl; [reflexivity|].
  destruct (str_eqb k' k); simpl; now rewrite ?IH.
Qed.

Lemma insert_index_keys i k v (o : obj A) x :
  In x (map fst (insert_index i k v o)) -> x = k \/ In x (map fst o).
Proof.
  induction o as [|[k' v'] o IH]; simpl; [intuition congruence|].
  destruct (array_index k') as [j|]; [destruct (i <? j)%N|]; simpl;
    try solve [intuition congruence].
Qed.

Lemma obj_set_keys k v (o : obj A) x :
  In x (map fst (obj_set k v o)) ->
  (x = k /\ str_eqb k (lit "__proto__") = false) \/ In x (map fst o).
Proof.
  unfold obj_set. destruct (str_eqb k (lit "__proto__")); [tauto|].
  destruct (has_key k o); [rewrite replace_value_keys; tauto|].
  destruct (array_index k).
  - intros H; apply insert_index_keys in H; tauto.
  - rewrite map_app, in_app_iff; simpl; intuition congruence.
Qed.

Lemma Object_assign_keys (t src : obj A) x :
  In x (map fst (Object_assign t src)) ->
  (In x (map fst src) /\ str_eqb x (lit "__proto__") = false)
  \/ In x (map fst t).
Proof.
  unfold Object_assign; revert t.
  induction src as [|[k v] src IH]; intros t; simpl; [tauto|].
  intros H; apply IH in H as [[H Hp]|H]; [tauto|].
  apply obj_set_keys in H as [[-> Hp]|H]; tauto.
Qed.

End Keys.

Lemma add_parameters_key_of params : forall properties required x,
  In x (map fst (fst (add_parameters params (properties, required)))) ->
  (In x (map p_name params) /\ str_eqb x (lit "__proto__") = false)
  \/ In x (map fst properties).
Proof.
  unfold add_parameters.
  induction params as [|p params IH]; intros properties required x; simpl;
    [tauto|].
  intros H; apply IH in H as [[H Hp]|H]; [tauto|].
  apply obj_set_keys in H as [[-> Hp]|H]; tauto.
Qed.

End SchemaKeys.

Module NormalizerExtras.

Import TokenCounter Benchmark Pure Readings ObjectProofs NormalizerProofs.
Import SchemaProofs SchemaKeys.


(** X2.  The [required] array of a tool holds the names of the parameters
    marked required, then what the request body requires, each value
    once: no two of its entries are the same value, every name to require
    is in it, and it holds nothing else. *)
Theorem required_deduplicated path method (op : OpenAPIOperation) :
  let wanted := required_names (declared op) ++ body_required op in
  let required := tool_required (operation_tool path method op) in
  ForallOrdPairs (fun x y => same_value_zero x y = false) required
  /\ incl wanted required
  /\ incl required wanted.
Proof.
  cbv zeta; rewrite tool_required_eq; unfold Set_values.
  split; [apply dedup_from_pairs|split].
  - intros x Hx; now apply dedup_from_keeps_all.
  - intros x Hx; now apply dedup_from_incl in Hx.
Qed.

(** X3.  The [properties] of a tool have a key for every parameter of the
    operation and for every property of its request body, and no other
    key; a property of the request body is copied as it is and replaces
    the parameter of the same name.  The key [__proto__] is never one of
    them. *)
Theorem properties_cover path method (op : OpenAPIOperation) :
  NoDup (map fst (body_properties op)) ->
  let properties := tool_properties (operation_tool path method op) in
  Forall (fun p =>
            has_key (p_name p) properties
            = negb (str_eqb (p_name p) (lit "__proto__")))
    (declared op)
  /\ Forall (fun kv =>
               obj_get (fst kv) properties
               = if str_eqb (fst kv) (lit "__proto__") then None
                 else Some (snd kv))
       (body_properties op)
  /\ incl (map fst properties)
       (map p_name (declared op) ++ map fst (body_properties op)).
Proof.
  intros Hnd; cbv zeta; rewrite tool_properties_eq.
  assert (forall x,
            In x (map fst (Object_assign
                             (fst (add_parameters (declared op) ([], [])))
                             (body_properties op))) ->
            (In x (map p_name (declared op))
             \/ In x (map fst (body_properties op)))
            /\ str_eqb x (lit "__proto__") = false) as Hkeys.
  { intros x H. apply Object_assign_keys in H as [[H Hp]|H]; [tauto|].
    apply add_parameters_key_of in H as [[H Hp]|[]]; tauto. }
  assert (forall (o : obj json),
            (forall x, In x (map fst o) ->
                       str_eqb x (lit "__proto__") = false) ->
            obj_get (lit "__proto__") o = None) as Hproto.
  { intros o Ho. apply obj_get_none; intros H. apply Ho in H.
    now rewrite str_eqb_refl in H. }
  split; [|split].
  - apply Forall_forall; intros p Hp.
    destruct (str_eqb (p_name p) (lit "__proto__")) eqn:E; cbn [negb].
    + apply str_eqb_eq in E; rewrite E. unfold has_key.
      rewrite Hproto; [reflexivity|]. intros x Hx; now apply Hkeys.
    + now apply has_key_assign, add_parameters_keys.
  - apply Forall_forall; intros [k v] Hin; cbn [fst snd].
    destruct (str_eqb k (lit "__proto__")) eqn:E.
    + apply str_eqb_eq in E; rewrite E.
      apply Hproto. intros x Hx; now apply Hkeys.
    + now apply obj_get_assign.
  - intros x Hx. apply in_or_app. now apply Hkeys.
Qed.

Lemma properties_cover_witness :
  Forall (fun kv : jsstring * json =>
            obj_get (fst kv)
              (tool_properties
                 (operation_tool (lit "/resource0/{id}") (lit "post")
                    MoreInputs.create_resource))
            = if str_eqb (fst kv) (lit "__proto__") then None
              else Some (snd kv))
    (body_properties MoreInputs.create_resource).
Proof.
  refine (proj1 (proj2
            (properties_cover (lit "/resource0/{id}") (lit "post")
               MoreInputs.create_resource _))).
  vm_compute. repeat constructor; simpl; intuition discriminate.
Defined.

End NormalizerExtras.

Module SyntheticProofs.

Import TokenCounter Benchmark Pure Readings ObjectProofs NormalizerProofs.
Import SchemaProofs SchemaKeys.

Lemma includes_after_digits d rest :
  Forall (fun c => is_digit c = true) d ->
  includes (d ++ rest) (lit "{id}") = includes rest (lit "{id}").
Proof.
  induction 1 as [|c d Hc _ IH]; [reflexivity|].
  cbn [app includes]. rewrite IH.
  replace (startsWith (lit "{id}") (c :: d ++ rest)) with false;
    [reflexivity|].
  cbn [lit startsWith]. 
  destruct (N.eqb_spec (N_of_ascii "{") c) as [<-|]; [discriminate Hc|].
  reflexivity.
Qed.

Lemma synthetic_path_identifier i :
  includes (synthetic_path i) (lit "{id}") = takes_identifier i.
Proof.
  rewrite synthetic_path_shape.
  change (lit "/resource" ++ Number_toString (i / 5) ++ suffix (i mod 5))
    with (lit "/resource" ++ (Number_toString (i / 5) ++ suffix (i mod 5))).
  assert (forall s, includes (lit "/resource" ++ s) (lit "{id}")
                    = includes s (lit "{id}")) as -> by reflexivity.
  rewrite includes_after_digits by apply Number_toString_digits.
  unfold takes_identifier.
  pose proof (Nat.mod_upper_bound i 5 ltac:(discriminate)) as Hk.
  destruct (i mod 5) as [|[|[|[|[|k]]]]]; [..|lia]; reflexivity.
Qed.

Lemma synthetic_name_resource m k a b :
  Forall (fun c => is_digit c = true) a ->
  Forall (fun c => is_digit c = true) b ->
  m ++ lit "_" ++ (lit "resource" ++ a) ++ lit "_" ++ k
  = m ++ lit "_" ++ (lit "resource" ++ b) ++ lit "_" ++ k ->
  a = b.
Proof.
  intros Ha Hb H.
  apply app_inv_head, app_inv_head in H.
  rewrite <- !app_assoc in H. apply app_inv_head in H.
  now apply numeral_then in H as [Hd _].
Qed.

Lemma synthetic_name_inj i j :
  synthetic_method i ++ lit "_" ++ synthetic_resource i ++ lit "_"
    ++ Number_toString (i mod 5)
  = synthetic_method j ++ lit "_" ++ synthetic_resource j ++ lit "_"
    ++ Number_toString (j mod 5) ->
  i = j.
Proof.
  unfold synthetic_method, synthetic_resource, methods.
  pose proof (Nat.mod_upper_bound i 5 ltac:(discriminate)) as Hi.
  pose proof (Nat.mod_upper_bound j 5 ltac:(discriminate)) as Hj.
  destruct (i mod 5) as [|[|[|[|[|k]]]]] eqn:Ei; [..|lia];
    destruct (j mod 5) as [|[|[|[|[|k']]]]] eqn:Ej; try lia;
    cbn [nth]; intros H;
    try (apply (f_equal (firstn 2)) in H; vm_compute in H; discriminate H);
    (apply synthetic_name_resource in H;
     [apply Number_toString_inj in H;
      rewrite (Nat.div_mod_eq i 5), (Nat.div_mod_eq j 5); congruence
     |apply Number_toString_digits|apply Number_toString_digits]).
Qed.

Lemma synthetic_tool_name i :
  name (operation_tool (synthetic_path i) (synthetic_method i)
          (synthetic_operation (synthetic_resource i) (synthetic_path i)
             (synthetic_method i) (i mod 5)))
  = synthetic_method i ++ lit "_" ++ synthetic_resource i ++ lit "_"
    ++ Number_toString (i mod 5).
Proof.
  rewrite operation_tool_name, tool_name_cases.
  cbn [synthetic_operation operationId].
  replace (nonempty _) with true; [reflexivity|].
  unfold synthetic_method, methods.
  pose proof (Nat.mod_upper_bound i 5 ltac:(discriminate)) as Hi.
  destruct (i mod 5) as [|[|[|[|[|k]]]]]; [..|lia]; reflexivity.
Qed.

Lemma synthetic_posts i :
  (str_eqb (synthetic_method i) (lit "post")
   || str_eqb (synthetic_method i) (lit "put")
   || str_eqb (synthetic_method i) (lit "patch"))%bool = takes_identifier i.
Proof.
  unfold synthetic_method, methods, takes_identifier.
  pose proof (Nat.mod_upper_bound i 5 ltac:(discriminate)) as Hi.
  destruct (i mod 5) as [|[|[|[|[|k]]]]]; [..|lia]; reflexivity.
Qed.

End SyntheticProofs.

Module SyntheticExtras.

Import TokenCounter Benchmark Pure Readings ObjectProofs NormalizerProofs.
Import SchemaProofs SchemaKeys SyntheticProofs.

(** X4.  The tools of a synthetic catalog have pairwise distinct names,
    whatever the number of endpoints. *)
Theorem synthetic_names_distinct (n : nat) :
  NoDup (map name (openApiToMcpTools (generateSyntheticSpec n))).
Proof.
  rewrite openApiToMcpTools_operations, generated_operations, !map_map.
  apply Injective_map_NoDup; [|apply seq_NoDup].
  intros i j; cbn [fst snd]. rewrite !synthetic_tool_name.
  apply synthetic_name_inj.
Qed.

(** X5.  A synthetic tool takes arguments exactly when its path names an
    identifier, which are the path shapes 1, 2 and 3 and also the verbs
    that send a body: it then has the properties [id], [name],
    [description] and [status] and requires [id] and [name].  The tools of
    the two other shapes have no property and require nothing. *)
Theorem synthetic_tool_arguments (n : nat) :
  map (fun tool => (map fst (tool_properties tool), tool_required tool))
    (openApiToMcpTools (generateSyntheticSpec n))
  = map (fun i =>
           if (1 <=? i mod 5) && (i mod 5 <=? 3)
           then ([lit "id"; lit "name"; lit "description"; lit "status"],
                 [JString (lit "id"); JString (lit "name")])
           else ([], []))
      (seq 0 n).
Proof.
  rewrite openApiToMcpTools_operations, generated_operations, !map_map.
  apply map_ext; intros i; cbn [fst snd].
  rewrite tool_properties_eq, tool_required_eq.
  unfold declared, body_properties, body_required, body_schema,
    synthetic_operation; cbn [parameters requestBody].
  rewrite synthetic_path_identifier, synthetic_posts.
  fold (takes_identifier i).
  destruct (takes_identifier i); reflexivity.
Qed.

End SyntheticExtras.

Module ScenarioProofs.

Import TokenCounter Benchmark Pure Readings TokenCounterProofs RunnerProofs.

Section Estimator.

Variable encode : jsstring -> list N.






Lemma all_tools_app a b : all_tools (a ++ b) = all_tools a ++ all_tools b.
Proof. unfold all_tools; apply flat_map_app. Qed.

Lemma tools_tokens_perm a b :
  Permutation a b -> tools_tokens encode a = tools_tokens encode b.
Proof.
  induction 1; simpl; lia.
Qed.

Lemma all_tools_perm a b :
  Permutation a b -> Permutation (all_tools a) (all_tools b).
Proof. intros H; unfold all_tools; now apply Permutation_flat_map. Qed.

End Estimator.



Lemma cost_sign (saved : Z) :
  (0 < inject_Z saved / 1000000 * COST_PER_MILLION_TOKENS)%Q
  <-> (0 < saved)%Z.
Proof.
  unfold COST_PER_MILLION_TOKENS, Qlt, Qdiv, Qmult, Qinv, inject_Z; simpl.
  lia.
Qed.

Lemma monthly_sign (saved : Z) :
  (0 < inject_Z saved / 1000000 * COST_PER_MILLION_TOKENS
       * MONTHLY_REQUESTS_PER_USER)%Q
  <-> (0 < saved)%Z.
Proof.
  unfold COST_PER_MILLION_TOKENS, MONTHLY_REQUESTS_PER_USER, Qlt, Qdiv, Qmult,
    Qinv, inject_Z; simpl.
  lia.
Qed.

Lemma percentage_sign (saved full : Z) :
  (0 < full)%Z ->
  (0 < inject_Z saved / inject_Z full * 100)%Q <-> (0 < saved)%Z.
Proof.
  intros Hf. unfold Qlt, Qdiv, Qmult, Qinv, inject_Z; simpl.
  destruct full as [|p|p]; try lia. simpl. nia.
Qed.

End ScenarioProofs.

Module RunnerExtras.

Import TokenCounter Benchmark Pure Readings Inputs.
Import TokenCounterProofs RunnerProofs ScenarioProofs.

Ltac fields :=
  cbn [scenario projectCount totalTools metaToolsTokens fullExpansionTokens
       tokensSaved percentageSaved costSavedPerReq monthlySaved].

(** X6.  The figures of a scenario depend neither on the order in which
    its catalogs are given nor on the state of the encoder when the run
    starts. *)
Theorem runBenchmark_order (encode : jsstring -> list N) label a b w w' :
  Permutation a b ->
  fst (runBenchmark encode label a w) = fst (runBenchmark encode label b w').
Proof.
  intros H.
  rewrite (runBenchmark_result encode label a w),
    (runBenchmark_result encode label b w').
  cbv zeta.
  rewrite (Permutation_length H),
    (Permutation_length (all_tools_perm a b H)),
    (tools_tokens_perm encode _ _ (all_tools_perm a b H)).
  reflexivity.
Qed.

Lemma runBenchmark_order_witness :
  fst (runBenchmark unit_encode (lit "Two APIs")
         [meta_catalog; synthetic_service (lit "Service A") 5] initial)
  = fst (runBenchmark unit_encode (lit "Two APIs")
           [synthetic_service (lit "Service A") 5; meta_catalog]
           (snd (getEncoder initial))).
Proof.
  apply (runBenchmark_order unit_encode (lit "Two APIs")
           [meta_catalog; synthetic_service (lit "Service A") 5]
           [synthetic_service (lit "Service A") 5; meta_catalog]).
  apply perm_swap.
Defined.

(** X7.  Putting two lists of catalogs together adds their project
    counts, their tool counts and their full-expansion tokens; the cost of
    the meta-tools is counted once, so the tokens saved are those of the
    first list plus the full-expansion tokens of the second. *)
Theorem runBenchmark_combines (encode : jsstring -> list N) label a b w :
  let r := fun specs => fst (runBenchmark encode label specs w) in
  projectCount (r (a ++ b)) = (projectCount (r a) + projectCount (r b))%Z
  /\ totalTools (r (a ++ b)) = (totalTools (r a) + totalTools (r b))%Z
  /\ fullExpansionTokens (r (a ++ b))
     = (fullExpansionTokens (r a) + fullExpansionTokens (r b))%Z
  /\ metaToolsTokens (r (a ++ b)) = metaToolsTokens (r a)
  /\ tokensSaved (r (a ++ b))
     = (tokensSaved (r a) + fullExpansionTokens (r b))%Z.
Proof.
  cbv beta zeta. rewrite !runBenchmark_result; fields.
  rewrite all_tools_app, !length_app, tools_tokens_app.
  repeat split; lia.
Qed.

(** X8.  The four savings figures are positive together: the tokens
    saved, the percentage, the cost per request and the monthly cost are
    above zero exactly when full expansion takes more tokens than the
    meta-tools. *)
Theorem savings_positive_together (encode : jsstring -> list N) label specs w :
  let r := fst (runBenchmark encode label specs w) in
  ((0 < tokensSaved r)%Z
   <-> (metaToolsTokens r < fullExpansionTokens r)%Z)
  /\ ((0 < percentageSaved r)%Q <-> (0 < tokensSaved r)%Z)
  /\ ((0 < costSavedPerReq r)%Q <-> (0 < tokensSaved r)%Z)
  /\ ((0 < monthlySaved r)%Q <-> (0 < tokensSaved r)%Z).
Proof.
  cbv zeta. rewrite runBenchmark_result; fields.
  pose proof (tools_tokens_nonneg encode META_TOOLS) as Hm.
  pose proof (tools_tokens_nonneg encode (all_tools specs)) as Hf.
  split; [lia|split; [|split]].
  - destruct (Z.ltb_spec 0 (tools_tokens encode (all_tools specs))) as [H|H].
    + now apply percentage_sign.
    + split; [intros H0; discriminate H0|lia].
  - apply cost_sign.
  - apply monthly_sign.
Qed.

(** X9.  Catalogs without any operation give a negative result: under a
    vocabulary that encodes a non-empty text to at least one token, the
    run counts no tool and no full-expansion token, reports a percentage
    of zero, and reports tokens saved and costs below zero. *)
Theorem no_tools_negative_savings (encode : jsstring -> list N) label specs w :
  (forall text, text <> [] -> encode text <> []) ->
  all_tools specs = [] ->
  let r := fst (runBenchmark encode label specs w) in
  totalTools r = 0%Z
  /\ fullExpansionTokens r = 0%Z
  /\ percentageSaved r = 0%Q
  /\ (tokensSaved r < 0)%Z
  /\ (costSavedPerReq r < 0)%Q
  /\ (monthlySaved r < 0)%Q.
Proof.
  intros Hne Hnone. cbv zeta. rewrite runBenchmark_result; fields.
  rewrite Hnone.
  change (tools_tokens encode []) with 0%Z.
  pose proof (meta_tokens_positive encode Hne) as Hm.
  set (meta := tools_tokens encode META_TOOLS) in *.
  split; [reflexivity|split; [reflexivity|split; [reflexivity|]]].
  split; [lia|].
  unfold COST_PER_MILLION_TOKENS, MONTHLY_REQUESTS_PER_USER, Qlt, Qdiv,
    Qmult, Qinv, inject_Z; simpl; lia.
Qed.

Lemma no_tools_negative_savings_witness :
  (tokensSaved
     (fst (runBenchmark unit_encode (lit "No API")
             [{| spec_name := lit "Empty";
                 spec := generateSyntheticSpec 0 |}] initial)) < 0)%Z.
Proof.
  refine (proj1 (proj2 (proj2 (proj2
            (no_tools_negative_savings unit_encode (lit "No API")
               [{| spec_name := lit "Empty";
                   spec := generateSyntheticSpec 0 |}] initial _ _))))).
  - intros text H; exact H.
  - reflexivity.
Defined.




End RunnerExtras.

Module LiveBounds.

Import EstimatorSpec EstimatorProofs Live Readings ObjectProofs.

(** *** The estimate in integers *)

Lemma estimate_in_integers (S W L : Z) :
  Qceiling
    (inject_Z
       (Qceiling (inject_Z S * 0.5 + inject_Z W * 1.3)%Q
        + Qceiling (inject_Z L / 4)%Q) / 2)%Q
  = (- (- (- (- (S * 50 + W * 130) / 100) + - (- L / 4)) / 2))%Z.
Proof.
  cbv [Qceiling Qfloor Qopp Qplus Qmult Qdiv Qinv inject_Z Qnum Qden].
  cbn [Pos.mul Pos.add Pos.succ]. rewrite !Z.mul_1_r.
  replace (S * 5 * 10 + W * 13 * 10)%Z with (S * 50 + W * 130)%Z by lia.
  reflexivity.
Qed.

Lemma fragments_bound m : count_nonempty (fragments m) <= somes m.
Proof.
  induction m as [|[c|] m IH]; simpl; [unfold count_nonempty; simpl; lia| |].
  - destruct (fragments_cons m) as (f & fs & Hf); rewrite Hf in *.
    unfold count_nonempty in *; simpl in *.
    destruct (nonempty f); simpl in *; lia.
  - exact IH.
Qed.

Lemma boundaries_somes text :
  somes (blank_non_alphanumerics (insert_boundaries text))
  = length (filter is_alnum text).
Proof.
  induction text as [|a [|b r] IH]; [reflexivity| |].
  - simpl. destruct (is_alnum a); reflexivity.
  - change (insert_boundaries (a :: b :: r))
      with (if is_lower a && is_upper b
            then Some a :: None :: insert_boundaries (b :: r)
            else Some a :: insert_boundaries (b :: r)).
    cbn [filter].
    destruct (is_lower a && is_upper b);
      cbn [blank_non_alphanumerics map somes];
      fold (blank_non_alphanumerics (insert_boundaries (b :: r)));
      rewrite IH; destruct (is_alnum a); reflexivity.
Qed.

Lemma structural_not_alnum c : is_structural c = true -> is_alnum c = false.
Proof.
  intros H.
  destruct (is_structural_cases c H) as [->|[->|[->|[->|[->|[->| ->]]]]]];
    reflexivity.
Qed.

Lemma structural_and_words text :
  (S_count text + W_count text <= Z.of_nat (length text))%Z.
Proof.
  rewrite S_count_filter. unfold W_count.
  pose proof (fragments_bound
                (blank_non_alphanumerics (insert_boundaries text))) as H.
  rewrite boundaries_somes in H. unfold count_nonempty in H.
  enough (length (filter is_structural text) + length (filter is_alnum text)
          <= length text) by lia.
  clear H. induction text as [|c text IH]; [reflexivity|].
  cbn [filter length].
  destruct (is_structural c) eqn:E;
    [rewrite (structural_not_alnum c E)|destruct (is_alnum c)];
    cbn [length]; lia.
Qed.

Lemma countTokens_bounds text :
  (Z.of_nat (length text) <= 8 * countTokens text
   /\ countTokens text <= Z.of_nat (length text) + 1
   /\ (countTokens text = 0 <-> Z.of_nat (length text) = 0))%Z.
Proof.
  rewrite countTokens_spec.
  unfold estimate, first_estimate, second_estimate.
  rewrite estimate_in_integers.
  pose proof (structural_and_words text) as H.
  assert (0 <= S_count text)%Z by (rewrite S_count_filter; lia).
  assert (0 <= W_count text)%Z by (unfold W_count; lia).
  Z.div_mod_to_equations. lia.
Qed.

Lemma first_text_counts raw : (1 <= countTokens (first_text raw))%Z.
Proof.
  pose proof (countTokens_bounds (first_text raw)) as (H & _).
  assert (1 <= length (first_text raw)).
  { unfold first_text. destruct raw as [|c raw]; [simpl; lia|].
    destruct (text c); simpl; lia. }
  lia.
Qed.

(** *** What a completed run read *)

#[local] Opaque countTokens lit.

Lemma runLiveBenchmark_steps client parser r :
  runLiveBenchmark client parser = Some r ->
  exists raw1 d1 raw2 d2 raw3,
    initialize client = Some tt
    /\ listTools client <> None
    /\ callTool client (lit "list_services") (JObject []) = Some raw1
    /\ parse_services parser (first_text raw1) = Some d1
    /\ callTool client (lit "search_tools")
         (JObject [(lit "query", JString (lit "create"));
                   (lit "limit", JNumber 50)]) = Some raw2
    /\ parse_search parser (first_text raw2) = Some d2
    /\ callTool client (lit "describe_tools")
         (JObject
            [(lit "tools",
              JArray (map JString
                        (map found_name (firstn 5 (found_tools d2)))))])
       = Some raw3
    /\ parse_describe parser (first_text raw3) <> None
    /\ services_count r = services_total d1
    /\ services_names r = map service_name (services d1)
    /\ (tools_perService r, tools_total r) = service_summary (services d1)
    /\ listServicesResponse (tokenMeasurements r)
       = countTokens (first_text raw1)
    /\ searchToolsResponse (tokenMeasurements r)
       = countTokens (first_text raw2)
    /\ describeToolsResponse (tokenMeasurements r)
       = countTokens (first_text raw3)
    /\ percentageSaved (fairComparison r)
       = (if (0 <? fullExpansion (fairComparison r))%Z
          then (inject_Z (difference (fairComparison r))
                / inject_Z (fullExpansion (fairComparison r)) * 100)%Q
          else 0%Q)
    /\ recommendation (fairComparison r)
       = recommend (percentageSaved (fairComparison r)).
Proof.
  unfold runLiveBenchmark, and_then.
  destruct (initialize client) as [[]|]; [|discriminate].
  destruct (listTools client) as [tools|] eqn:E0; [|discriminate].
  destruct (callTool client (lit "list_services") _) as [raw1|] eqn:E1;
    [|discriminate].
  destruct (parse_services parser _) as [d1|] eqn:P1; [|discriminate].
  destruct (service_summary _) as [perService total] eqn:Es.
  destruct (callTool client (lit "search_tools") _) as [raw2|] eqn:E2;
    [|discriminate].
  destruct (parse_search parser _) as [d2|] eqn:P2; [|discriminate].
  destruct (callTool client (lit "describe_tools") _) as [raw3|] eqn:E3;
    [|discriminate].
  destruct (parse_describe parser _) as [d3|] eqn:P3; [|discriminate].
  intros H; injection H as Hr.
  exists raw1, d1, raw2, d2, raw3.
  repeat (split;
          [first [reflexivity|assumption|discriminate|congruence
                 |now rewrite <- Hr]|]).
  now rewrite <- Hr.
Qed.

#[local] Transparent countTokens lit.

Lemma service_summary_eq l :
  service_summary l
  = (Object_assign [] (map (fun s => (service_name s, toolCount s)) l),
     reported_tools l).
Proof.
  unfold service_summary, Object_assign.
  assert (forall acc total,
            fold_left
              (fun (acc : obj Z * Z) service =>
                 let (toolsPerService, totalTools) := acc in
                 (obj_set (service_name service) (toolCount service)
                    toolsPerService,
                  (totalTools + toolCount service)%Z))
              l (acc, total)
            = (fold_left (fun t kv => obj_set (fst kv) (snd kv) t)
                 (map (fun s => (service_name s, toolCount s)) l) acc,
               (total + reported_tools l)%Z)) as H.
  { induction l as [|s l IH]; intros acc total; simpl.
    - f_equal; lia.
    - rewrite IH. f_equal. lia. }
  rewrite H. reflexivity.
Qed.

(** *** The recommendation in integers *)

Lemma percentage_above (k d full : Z) :
  (0 < full)%Z -> (0 <= k)%Z ->
  (inject_Z k < inject_Z d / inject_Z full * 100)%Q
  <-> (k * full < d * 100)%Z.
Proof.
  intros Hf Hk. unfold Qlt, Qdiv, Qmult, Qinv, inject_Z; simpl.
  destruct full as [|p|p]; try lia. simpl.
  rewrite ?Pos.mul_1_r, ?Z.mul_1_r. reflexivity.
Qed.

End LiveBounds.

Module LiveExtras.

Import EstimatorSpec EstimatorProofs Live Readings ObjectProofs LiveBounds.
Import Inputs MoreInputs.

(** X13.  The heuristic estimate of a text of [n] characters lies between
    [n / 8] and [n + 1]; it is zero for the empty text only. *)
Theorem estimate_bounds (text : jsstring) :
  (Z.of_nat (length text) <= 8 * countTokens text)%Z
  /\ (countTokens text <= Z.of_nat (length text) + 1)%Z
  /\ (countTokens text = 0%Z <-> text = []).
Proof.
  destruct (countTokens_bounds text) as (H1 & H2 & H3).
  split; [exact H1|split; [exact H2|]].
  rewrite H3. destruct text; simpl; split; intros H; try reflexivity;
    try discriminate H; lia.
Qed.

(** X14.  A live run that completes has initialized the session, listed
    the tools, and called [list_services] without arguments,
    [search_tools] for [create] with a limit of 50, and [describe_tools]
    for the names of the first five tools found, fewer if fewer were
    found.  The number of services is the total the endpoint reports; the
    number of tools is the sum of the tool counts of the services listed,
    and full expansion is charged 140 tokens for each. *)
Theorem live_run_figures client parser r :
  runLiveBenchmark client parser = Some r ->
  exists raw1 d1 raw2 d2 raw3,
    initialize client = Some tt
    /\ listTools client <> None
    /\ callTool client (lit "list_services") (JObject []) = Some raw1
    /\ parse_services parser (first_text raw1) = Some d1
    /\ callTool client (lit "search_tools")
         (JObject [(lit "query", JString (lit "create"));
                   (lit "limit", JNumber 50)]) = Some raw2
    /\ parse_search parser (first_text raw2) = Some d2
    /\ callTool client (lit "describe_tools")
         (JObject
            [(lit "tools",
              JArray (map JString
                        (map found_name (firstn 5 (found_tools d2)))))])
       = Some raw3
    /\ parse_describe parser (first_text raw3) <> None
    /\ services_count r = services_total d1
    /\ services_names r = map service_name (services d1)
    /\ tools_total r = reported_tools (services d1)
    /\ fullExpansion (fairComparison r)
       = (reported_tools (services d1) * 140)%Z.
Proof.
  intros H.
  destruct (runLiveBenchmark_steps client parser r H)
    as (raw1 & d1 & raw2 & d2 & raw3 & H0 & H1 & H2 & H3 & H4 & H5 & H6
        & H7 & H8 & H9 & H10 & _).
  destruct (LiveProofs.runLiveBenchmark_accounts client parser r H)
    as (_ & Hf & _).
  rewrite service_summary_eq in H10; injection H10 as _ Ht.
  exists raw1, d1, raw2, d2, raw3.
  rewrite Hf, Ht.
  repeat (split; [first [assumption|reflexivity]|]). reflexivity.
Qed.

Lemma live_run_figures_witness :
  exists raw1 d1 raw2 d2 raw3,
    initialize small_client = Some tt
    /\ listTools small_client <> None
    /\ callTool small_client (lit "list_services") (JObject []) = Some raw1
    /\ parse_services small_parser (first_text raw1) = Some d1
    /\ callTool small_client (lit "search_tools")
         (JObject [(lit "query", JString (lit "create"));
                   (lit "limit", JNumber 50)]) = Some raw2
    /\ parse_search small_parser (first_text raw2) = Some d2
    /\ callTool small_client (lit "describe_tools")
         (JObject
            [(lit "tools",
              JArray (map JString
                        (map found_name (firstn 5 (found_tools d2)))))])
       = Some raw3
    /\ parse_describe small_parser (first_text raw3) <> None
    /\ services_count small_result = services_total d1
    /\ services_names small_result = map service_name (services d1)
    /\ tools_total small_result = reported_tools (services d1)
    /\ fullExpansion (fairComparison small_result)
       = (reported_tools (services d1) * 140)%Z.
Proof.
  apply (live_run_figures small_client small_parser small_result).
  vm_compute; reflexivity.
Defined.

(** X15.  A live run reads the endpoint through [initialize] and the
    three meta-tools only: two endpoints that answer those alike give the
    same result.  What [tools/list] returns has no part in it, as long as
    it returns, and [execute_tool] is never called. *)
Theorem live_run_reads (c1 c2 : MCPClient) parser :
  initialize c1 = initialize c2 ->
  (listTools c1 = None <-> listTools c2 = None) ->
  (forall args,
     callTool c1 (lit "list_services") args
     = callTool c2 (lit "list_services") args) ->
  (forall args,
     callTool c1 (lit "search_tools") args
     = callTool c2 (lit "search_tools") args) ->
  (forall args,
     callTool c1 (lit "describe_tools") args
     = callTool c2 (lit "describe_tools") args) ->
  runLiveBenchmark c1 parser = runLiveBenchmark c2 parser.
Proof.
  intros Hi Hl H1 H2 H3.
  unfold runLiveBenchmark, and_then.
  rewrite Hi. destruct (initialize c2); [|reflexivity].
  destruct (listTools c1) as [t1|], (listTools c2) as [t2|];
    try reflexivity;
    [|exfalso; destruct Hl as [_ Hl]; discriminate (Hl eq_refl)
     |exfalso; destruct Hl as [Hl _]; discriminate (Hl eq_refl)].
  rewrite H1.
  destruct (callTool c2 (lit "list_services") _); [|reflexivity].
  destruct (parse_services parser _); [|reflexivity].
  destruct (service_summary _).
  rewrite H2.
  destruct (callTool c2 (lit "search_tools") _); [|reflexivity].
  destruct (parse_search parser _); [|reflexivity].
  rewrite H3. reflexivity.
Qed.

Lemma live_run_reads_witness :
  runLiveBenchmark small_client small_parser
  = runLiveBenchmark bare_client small_parser.
Proof.
  apply (live_run_reads small_client bare_client small_parser).
  - reflexivity.
  - split; intros H; discriminate H.
  - intros args; reflexivity.
  - intros args; reflexivity.
  - intros args; reflexivity.
Defined.

(** X16.  The recommendation of a live run compares the full-expansion
    estimate with the tokens of the meta-tools workflow: meta-tools are
    strongly recommended above five times the workflow, recommended above
    twice, slightly better above once, and full expansion is preferred
    otherwise. *)
Theorem recommendation_thresholds client parser r :
  runLiveBenchmark client parser = Some r ->
  let full := fullExpansion (fairComparison r) in
  let workflow := metaToolsWorkflow (fairComparison r) in
  recommendation (fairComparison r)
  = if (5 * workflow <? full)%Z then StronglyRecommended
    else if (2 * workflow <? full)%Z then Recommended
    else if (workflow <? full)%Z then SlightlyBetter
    else FullExpansionBetter.
Proof.
  intros H.
  destruct (runLiveBenchmark_steps client parser r H)
    as (raw1 & d1 & raw2 & d2 & raw3 & _ & _ & _ & _ & _ & _ & _
        & _ & _ & _ & _ & M1 & M2 & M3 & Hp & Hr).
  destruct (LiveProofs.runLiveBenchmark_accounts client parser r H)
    as (Hw & _ & Hd & _).
  pose proof (first_text_counts raw1). pose proof (first_text_counts raw2).
  pose proof (first_text_counts raw3).
  cbv zeta. rewrite Hr, Hp, Hd.
  set (full := fullExpansion (fairComparison r)) in *.
  set (w := metaToolsWorkflow (fairComparison r)) in *.
  assert (1281 <= w)%Z as Hw' by (unfold META_TOOLS_TOKENS in Hw; lia).
  clearbody full w. clear - Hw'.
  unfold recommend.
  destruct (Z.ltb_spec 0 full) as [Hf|Hf].
  - pose proof (percentage_above 80 (full - w) full Hf ltac:(lia)) as P80.
    pose proof (percentage_above 50 (full - w) full Hf ltac:(lia)) as P50.
    pose proof (percentage_above 0 (full - w) full Hf ltac:(lia)) as P0.
    change (inject_Z 80) with 80%Q in P80.
    change (inject_Z 50) with 50%Q in P50.
    change (inject_Z 0) with 0%Q in P0.
    destruct (Qlt_le_dec 80 _) as [Q80|Q80].
    { apply P80 in Q80.
      destruct (Z.ltb_spec (5 * w) full); [reflexivity|lia]. }
    apply Qle_not_lt in Q80.
    destruct (Z.ltb_spec (5 * w) full) as [C|C];
      [exfalso; apply Q80, P80; lia|].
    destruct (Qlt_le_dec 50 _) as [Q50|Q50].
    { apply P50 in Q50.
      destruct (Z.ltb_spec (2 * w) full); [reflexivity|lia]. }
    apply Qle_not_lt in Q50.
    destruct (Z.ltb_spec (2 * w) full) as [C2|C2];
      [exfalso; apply Q50, P50; lia|].
    destruct (Qlt_le_dec 0 _) as [Q0|Q0].
    { apply P0 in Q0.
      destruct (Z.ltb_spec w full); [reflexivity|lia]. }
    apply Qle_not_lt in Q0.
    destruct (Z.ltb_spec w full) as [C3|C3];
      [exfalso; apply Q0, P0; lia|reflexivity].
  - destruct (Z.ltb_spec (5 * w) full); [lia|].
    destruct (Z.ltb_spec (2 * w) full); [lia|].
    destruct (Z.ltb_spec w full); [lia|]. reflexivity.
Qed.

Lemma recommendation_thresholds_witness :
  recommendation (fairComparison small_result) = FullExpansionBetter.
Proof.
  apply (recommendation_thresholds small_client small_parser small_result).
  vm_compute; reflexivity.
Defined.

(** X17.  The workflow of the meta-tools costs a live run at least 1281
    tokens, so the percentage saved stays below 100, an organization of
    nine tools or fewer is always told that full expansion may be better,
    with a negative difference, and meta-tools are strongly recommended
    only from 46 tools on. *)
Theorem small_organizations client parser r :
  runLiveBenchmark client parser = Some r ->
  (1281 <= metaToolsWorkflow (fairComparison r))%Z
  /\ (percentageSaved (fairComparison r) < 100)%Q
  /\ ((tools_total r <= 9)%Z ->
      recommendation (fairComparison r) = FullExpansionBetter
      /\ (difference (fairComparison r) < 0)%Z)
  /\ (recommendation (fairComparison r) = StronglyRecommended ->
      (46 <= tools_total r)%Z).
Proof.
  intros H.
  destruct (runLiveBenchmark_steps client parser r H)
    as (raw1 & d1 & raw2 & d2 & raw3 & _ & _ & _ & _ & _ & _ & _
        & _ & _ & _ & _ & M1 & M2 & M3 & Hp & Hr).
  destruct (LiveProofs.runLiveBenchmark_accounts client parser r H)
    as (Hw & Hf & Hd & _).
  pose proof (first_text_counts raw1). pose proof (first_text_counts raw2).
  pose proof (first_text_counts raw3).
  assert (1281 <= metaToolsWorkflow (fairComparison r))%Z as Hw'
      by (unfold META_TOOLS_TOKENS in Hw; lia).
  unfold avgTokensPerTool in Hf.
  split; [exact Hw'|split; [|split]].
  - rewrite Hp.
    destruct (Z.ltb_spec 0 (fullExpansion (fairComparison r)));
      [|reflexivity].
    apply RunnerProofs.percentage_lt_100; lia.
  - intros Ht. split; [|lia].
    rewrite Hr, Hp, Hd. unfold recommend.
    destruct (Z.ltb_spec 0 (fullExpansion (fairComparison r))) as [Hpos|Hpos];
      [|reflexivity].
    pose proof (percentage_above 0
                  (fullExpansion (fairComparison r)
                   - metaToolsWorkflow (fairComparison r))
                  (fullExpansion (fairComparison r)) Hpos ltac:(lia)) as P0.
    change (inject_Z 0) with 0%Q in P0.
    assert (forall k : Z, (0 <= k)%Z ->
              ~ (inject_Z k
                 < inject_Z (fullExpansion (fairComparison r)
                             - metaToolsWorkflow (fairComparison r))
                   / inject_Z (fullExpansion (fairComparison r)) * 100)%Q)
      as Hno.
    { intros k Hk Hlt. apply percentage_above in Hlt; [nia|lia|lia]. }
    destruct (Qlt_le_dec 80 _) as [Q|_]; [destruct (Hno 80%Z ltac:(lia) Q)|].
    destruct (Qlt_le_dec 50 _) as [Q|_]; [destruct (Hno 50%Z ltac:(lia) Q)|].
    destruct (Qlt_le_dec 0 _) as [Q|_]; [destruct (Hno 0%Z ltac:(lia) Q)|].
    reflexivity.
  - rewrite Hr, Hp, Hd. unfold recommend.
    destruct (Z.ltb_spec 0 (fullExpansion (fairComparison r))) as [Hpos|Hpos].
    + destruct (Qlt_le_dec 80 _) as [Q|_].
      * intros _. change 80%Q with (inject_Z 80) in Q.
        apply percentage_above in Q; lia.
      * destruct (Qlt_le_dec 50 _); [discriminate|].
        destruct (Qlt_le_dec 0 _); discriminate.
    + discriminate.
Qed.

Lemma small_organizations_witness :
  (1281 <= metaToolsWorkflow (fairComparison small_result))%Z
  /\ recommendation (fairComparison small_result) = FullExpansionBetter.
Proof.
  destruct (small_organizations small_client small_parser small_result)
    as (H1 & _ & H3 & _); [vm_compute; reflexivity|].
  split; [exact H1|]. apply H3. vm_compute. discriminate.
Defined.

(** X18.  The summary of the services adds up the tool counts of all the
    services listed and, when no two services share a name, records for
    every service its own count under its name; a service named
    [__proto__] is counted in the total and gets no entry. *)
Theorem service_summary_entries (l : list ServiceSummary) :
  NoDup (map service_name l) ->
  snd (service_summary l) = reported_tools l
  /\ Forall (fun s =>
               obj_get (service_name s) (fst (service_summary l))
               = if str_eqb (service_name s) (lit "__proto__") then None
                 else Some (toolCount s))
       l.
Proof.
  intros Hnd. rewrite service_summary_eq; cbn [fst snd].
  split; [reflexivity|].
  apply Forall_forall; intros s Hs.
  destruct (str_eqb (service_name s) (lit "__proto__")) eqn:E.
  - apply str_eqb_eq in E; rewrite E.
    apply obj_get_none. intros Hin.
    apply SchemaKeys.Object_assign_keys in Hin as [[_ Hp]|[]].
    now rewrite str_eqb_refl in Hp.
  - apply obj_get_assign; [|now apply (in_map (fun s => (service_name s, toolCount s)))|exact E].
    now rewrite map_map.
Qed.

Lemma service_summary_entries_witness :
  snd (service_summary two_services) = 49%Z
  /\ obj_get (lit "GitHub") (fst (service_summary two_services)) = Some 40%Z.
Proof.
  destruct (service_summary_entries two_services) as [H1 H2].
  - repeat constructor; simpl; intuition discriminate.
  - split; [exact H1|].
    apply Forall_inv_tail, Forall_inv in H2. exact H2.
Defined.

End LiveExtras.

Module CliProofs.

Import LiveCli.

(** *** Scanning a URL *)

Lemma starts_after c rest :
  c <> 47%N -> startsWith (lit "/org/") (c :: rest) = false.
Proof.
  intros H. cbn [lit startsWith].
  destruct (N.eqb_spec (N_of_ascii "/") c) as [E|_]; [|reflexivity].
  exfalso; apply H; rewrite <- E; reflexivity.
Qed.

Lemma not_slash_neq c : not_slash c = true <-> c <> 47%N.
Proof.
  unfold not_slash. destruct (N.eqb_spec c 47); split; intros; try easy.
Qed.

Lemma match_org_skip c rest :
  c <> 47%N -> match_org (c :: rest) = match_org rest.
Proof.
  intros H. cbn [match_org]. now rewrite starts_after.
Qed.

Lemma match_org_prefix p rest :
  forallb not_slash p = true -> match_org (p ++ rest) = match_org rest.
Proof.
  induction p as [|c p IH]; [reflexivity|]. cbn [forallb app].
  intros H; apply andb_true_iff in H as [Hc Hp].
  rewrite match_org_skip; [now apply IH|now apply not_slash_neq].
Qed.

Lemma startsWith_length p s :
  startsWith p s = true -> length p <= length s.
Proof.
  revert s; induction p as [|x p IH]; intros [|y s]; simpl; try lia;
    try discriminate.
  intros H; apply andb_true_iff in H as [_ H]. apply IH in H; lia.
Qed.

Lemma match_org_length url capture :
  match_org url = Some capture -> length capture + 5 <= length url.
Proof.
  induction url as [|c url IH]; [discriminate|].
  cbn [match_org].
  assert (forall s, length (take_while slug_char s) <= length s) as Ht.
  { induction s as [|x s IHs]; simpl; [lia|].
    destruct (slug_char x); simpl; lia. }
  destruct (startsWith (lit "/org/") (c :: url)) eqn:E.
  - destruct (take_while slug_char (skipn 5 (c :: url))) as [|x t] eqn:Et.
    + intros H; apply IH in H; simpl; lia.
    + intros H; injection H as <-. rewrite <- Et.
      pose proof (startsWith_length _ _ E) as H5.
      change (length (lit "/org/")) with 5 in H5.
      pose proof (Ht (skipn 5 (c :: url))) as Hl.
      rewrite length_skipn in Hl. lia.
  - intros H; apply IH in H; simpl; lia.
Qed.

Lemma take_while_all p s : take_while p s = s <-> forallb p s = true.
Proof.
  induction s as [|c s IH]; simpl; [easy|].
  destruct (p c); simpl; [|easy].
  rewrite <- IH; split; [intros H; now injection H|intros ->; reflexivity].
Qed.

Lemma match_org_here slug :
  match_org (lit "/org/" ++ slug)
  = match take_while slug_char slug with
    | [] => match_org (lit "org/" ++ slug)
    | capture => Some capture
    end.
Proof. reflexivity. Qed.

(** The slug read back from [.../org/slug], once nothing before it looks
    like an organization path. *)
Lemma slug_read_back slug :
  nonempty slug = true ->
  (match match_org (lit "/org/" ++ slug) with
   | Some capture => capture
   | None => lit "unknown"
   end = slug
   <-> forallb slug_char slug = true).
Proof.
  intros Hne. rewrite match_org_here.
  destruct (take_while slug_char slug) as [|x t] eqn:Et.
  - assert (forallb slug_char slug = false) as Hf.
    { destruct slug as [|c slug]; [discriminate Hne|].
      simpl in Et |- *. destruct (slug_char c); [discriminate Et|reflexivity]. }
    rewrite Hf; split; [|discriminate].
    destruct (match_org (lit "org/" ++ slug)) as [capture|] eqn:Em.
    + apply match_org_length in Em. rewrite length_app in Em.
      intros ->. simpl in Em. lia.
    + intros <-. discriminate Hf.
  - rewrite <- Et. apply take_while_all.
Qed.

Lemma base_skip c rest :
  c <> 47%N -> mcpBaseUrl (c :: rest) = c :: mcpBaseUrl rest.
Proof.
  intros H. cbn [mcpBaseUrl]. now rewrite starts_after.
Qed.

Lemma base_prefix p rest :
  forallb not_slash p = true -> mcpBaseUrl (p ++ rest) = p ++ mcpBaseUrl rest.
Proof.
  induction p as [|c p IH]; [reflexivity|]. cbn [forallb app].
  intros H; apply andb_true_iff in H as [Hc Hp].
  rewrite base_skip; [now rewrite IH|now apply not_slash_neq].
Qed.

Lemma base_here slug :
  nonempty slug = true -> forallb not_slash slug = true ->
  mcpBaseUrl (lit "/org/" ++ slug) = [].
Proof.
  intros Hne Hs.
  change (mcpBaseUrl (lit "/org/" ++ slug))
    with (if true && nonempty slug && forallb not_slash slug
          then [] else 47%N :: mcpBaseUrl (lit "org/" ++ slug)).
  now rewrite Hne, Hs.
Qed.

Lemma starts_slash c rest :
  c <> 111%N -> startsWith (lit "/org/") (47%N :: c :: rest) = false.
Proof.
  intros H. cbn [lit startsWith].
  destruct (N.eqb_spec (N_of_ascii "o") c) as [E|_];
    [|now rewrite andb_false_r].
  exfalso; apply H; rewrite <- E; reflexivity.
Qed.

Lemma match_org_slash c rest :
  c <> 111%N -> match_org (47%N :: c :: rest) = match_org (c :: rest).
Proof.
  intros H. change (match_org (47%N :: c :: rest))
    with (if startsWith (lit "/org/") (47%N :: c :: rest)
          then match take_while slug_char (skipn 5 (47%N :: c :: rest)) with
               | [] => match_org (c :: rest)
               | capture => Some capture
               end
          else match_org (c :: rest)).
  now rewrite starts_slash.
Qed.

Lemma base_slash c rest :
  c <> 111%N ->
  mcpBaseUrl (47%N :: c :: rest) = 47%N :: mcpBaseUrl (c :: rest).
Proof.
  intros H. change (mcpBaseUrl (47%N :: c :: rest))
    with (if startsWith (lit "/org/") (47%N :: c :: rest)
             && nonempty (skipn 5 (47%N :: c :: rest))
             && forallb not_slash (skipn 5 (47%N :: c :: rest))
          then [] else 47%N :: mcpBaseUrl (c :: rest)).
  now rewrite starts_slash.
Qed.

(** The three shapes of the endpoint URL. *)
Lemma endpoint_url_shape env slug :
  exists host,
    endpoint_url env slug
    = lit "https://mcp." ++ host ++ lit "/org/" ++ slug
    /\ (forallb not_slash env = true -> forallb not_slash host = true).
Proof.
  unfold endpoint_url.
  destruct (str_eqb env (lit "production"));
    [|destruct (str_eqb env (lit "staging"))].
  - exists (lit "air-lock.ai"); split; reflexivity.
  - exists (lit "staging.air-lock.ai"); split; reflexivity.
  - exists (env ++ lit ".dev.air-lock.ai"); split.
    + now rewrite <- !app_assoc.
    + intros H. rewrite !forallb_app, H. reflexivity.
Qed.

Lemma scheme_scanned rest :
  match_org (lit "https://mcp." ++ rest) = match_org rest
  /\ mcpBaseUrl (lit "https://mcp." ++ rest)
     = lit "https://mcp." ++ mcpBaseUrl rest.
Proof.
  cbn [lit app]. split.
  - rewrite !match_org_skip by discriminate.
    rewrite !match_org_slash by discriminate.
    now rewrite !match_org_skip by discriminate.
  - rewrite !base_skip by discriminate.
    rewrite !base_slash by discriminate.
    now rewrite !base_skip by discriminate.
Qed.

(** *** Trimming *)

Lemma drop_while_hd p s c r : drop_while p s = c :: r -> p c = false.
Proof.
  induction s as [|x s IH]; simpl; [discriminate|].
  destruct (p x) eqn:E; [exact IH|]. intros H; injection H as <- _; exact E.
Qed.

Lemma drop_while_nil p s : drop_while p s = [] <-> forallb p s = true.
Proof.
  induction s as [|x s IH]; simpl; [easy|].
  destruct (p x); simpl; [exact IH|easy].
Qed.

Lemma drop_while_last p s :
  s <> [] -> p (last s 0%N) = false ->
  drop_while p s <> [] /\ last (drop_while p s) 0%N = last s 0%N.
Proof.
  induction s as [|x s IH]; [easy|]. intros _ Hl.
  cbn [drop_while]. destruct (p x) eqn:E; [|split; [discriminate|reflexivity]].
  destruct s as [|y s]; [simpl in Hl; congruence|].
  change (last (x :: y :: s) 0%N) with (last (y :: s) 0%N) in *.
  apply IH; [discriminate|exact Hl].
Qed.

Lemma last_rev (l : jsstring) : last (rev l) 0%N = hd 0%N l.
Proof.
  destruct l as [|x l]; [reflexivity|]. simpl. apply last_last.
Qed.

Lemma hd_rev (l : jsstring) : hd 0%N (rev l) = last l 0%N.
Proof.
  rewrite <- (rev_involutive l) at 2. now rewrite last_rev.
Qed.

Lemma forallb_rev (p : N -> bool) l : forallb p (rev l) = forallb p l.
Proof.
  induction l as [|x l IH]; [reflexivity|].
  simpl. rewrite forallb_app, IH; simpl. rewrite andb_true_r.
  apply andb_comm.
Qed.

Lemma trim_blank s : trim s = [] <-> forallb is_space s = true.
Proof.
  unfold trim. split.
  - intros H. apply (f_equal (@rev N)) in H. rewrite rev_involutive in H.
    simpl in H. apply drop_while_nil in H. rewrite forallb_rev in H.
    destruct (drop_while is_space s) as [|c r] eqn:E.
    + now apply drop_while_nil.
    + apply drop_while_hd in E. simpl in H.
      rewrite E in H; discriminate H.
  - intros H. apply drop_while_nil in H. rewrite H. reflexivity.
Qed.

Lemma trim_ends s :
  trim s <> [] ->
  is_space (hd 0%N (trim s)) = false /\ is_space (last (trim s) 0%N) = false.
Proof.
  unfold trim.
  destruct (drop_while is_space s) as [|c r] eqn:E; [easy|]. intros _.
  pose proof (drop_while_hd _ _ _ _ E) as Hc.
  destruct (drop_while_last is_space (rev (c :: r))) as [Hne Hl].
  - intros H. apply (f_equal (@rev N)) in H.
    rewrite rev_involutive in H. discriminate H.
  - now rewrite last_rev.
  - rewrite hd_rev, Hl, last_rev. split; [exact Hc|].
    rewrite last_rev.
    destruct (drop_while is_space (rev (c :: r))) as [|x t] eqn:Ed;
      [easy|].
    now apply drop_while_hd in Ed.
Qed.

(** *** The callback server *)

Lemma given_some o s : given o = Some s -> o = Some s /\ nonempty s = true.
Proof.
  destruct o as [t|]; simpl; [|discriminate].
  destruct (nonempty t) eqn:E; [|discriminate].
  intros H; injection H as <-. now split.
Qed.

Lemma handle_callback_resolved req code state :
  snd (handle_callback req) = Resolved code state ->
  pathname req = lit "/callback"
  /\ given (q_error req) = None
  /\ q_code req = Some code /\ nonempty code = true
  /\ q_state req = Some state /\ nonempty state = true
  /\ fst (handle_callback req) = 200%Z.
Proof.
  unfold handle_callback.
  destruct (str_eqb (pathname req) (lit "/callback")) eqn:Ep; [|discriminate].
  apply str_eqb_eq in Ep.
  destruct (given (q_error req)); [discriminate|].
  destruct (given (q_code req)) as [c|] eqn:Ec; [|discriminate].
  destruct (given (q_state req)) as [s|] eqn:Es; [|discriminate].
  cbn [snd fst]. intros H; injection H as <- <-.
  apply given_some in Ec as [-> ->]. apply given_some in Es as [-> ->].
  repeat split; assumption.
Qed.

Lemma startCallbackServer_resolved requests code state :
  startCallbackServer requests = Resolved code state ->
  exists before req after,
    requests = before ++ req :: after
    /\ Forall (fun q => snd (handle_callback q) = Pending) before
    /\ snd (handle_callback req) = Resolved code state.
Proof.
  induction requests as [|q requests IH]; [discriminate|].
  cbn [startCallbackServer].
  destruct (snd (handle_callback q)) as [c s|e|] eqn:E.
  - intros H; injection H as -> ->.
    exists [], q, requests. repeat split; [constructor|exact E].
  - discriminate.
  - intros H. destruct (IH H) as (before & req & after & -> & Hb & Hr).
    exists (q :: before), req, after.
    repeat split; [constructor; assumption|exact Hr].
Qed.

(** *** The client *)

Section Transport.

Variable fetch : jsstring -> jsstring -> jsstring -> option HttpResponse.

Lemma perform_eq c client :
  perform fetch c client
  = (outcome_of
       (fetch (baseUrl client) (lit "Bearer " ++ token client)
          (stringify_compact (call_body (requestId client + 1) c))),
     {| baseUrl := baseUrl client; token := token client;
        requestId := requestId client + 1 |}).
Proof. destruct c; reflexivity. Qed.

Lemma session_eq calls : forall client n,
  requestId client = Z.of_nat n ->
  session fetch calls client
  = (map (fun ic : nat * Call =>
            outcome_of
              (fetch (baseUrl client) (lit "Bearer " ++ token client)
                 (stringify_compact
                    (call_body (Z.of_nat (fst ic)) (snd ic)))))
       (combine (seq (S n) (length calls)) calls),
     {| baseUrl := baseUrl client; token := token client;
        requestId := Z.of_nat (n + length calls) |}).
Proof.
  induction calls as [|c calls IH]; intros client n Hn.
  - destruct client; cbn in *. now rewrite Nat.add_0_r, Hn.
  - cbn [session]. rewrite perform_eq.
    rewrite (IH _ (S n)) by (cbn [requestId]; lia).
    cbn [baseUrl token requestId length seq combine map fst snd].
    rewrite Hn. replace (Z.of_nat n + 1)%Z with (Z.of_nat (S n)) by lia.
    replace (S n + length calls) with (n + S (length calls)) by lia.
    reflexivity.
Qed.

End Transport.

End CliProofs.

Module CliExtras.

Import LiveCli CliProofs.

(** X19.  With [--org], for an environment name without a slash, the
    organization slug a live run reads back from the endpoint URL is the
    slug given exactly when that slug holds no slash and no question
    mark; and when it holds no slash, the base URL handed to the OAuth
    flow is the endpoint URL without its [/org/slug] end. *)
Theorem org_slug_round_trip (env slug : jsstring) :
  forallb not_slash env = true ->
  nonempty slug = true ->
  (orgSlug_of (endpoint_url env slug) = slug
   <-> forallb slug_char slug = true)
  /\ (forallb not_slash slug = true ->
      mcpBaseUrl (endpoint_url env slug) ++ lit "/org/" ++ slug
      = endpoint_url env slug).
Proof.
  intros He Hne.
  destruct (endpoint_url_shape env slug) as (host & -> & Hh).
  specialize (Hh He).
  destruct (scheme_scanned (host ++ lit "/org/" ++ slug)) as [Hm Hb].
  split.
  - unfold orgSlug_of. rewrite Hm, match_org_prefix by exact Hh.
    now apply slug_read_back.
  - intros Hs. rewrite Hb, base_prefix by exact Hh.
    rewrite base_here by assumption.
    now rewrite app_nil_r, <- !app_assoc.
Qed.

Lemma org_slug_round_trip_witness :
  orgSlug_of (endpoint_url (lit "alice") (lit "acme")) = lit "acme"
  <-> forallb slug_char (lit "acme") = true.
Proof.
  apply (org_slug_round_trip (lit "alice") (lit "acme")); reflexivity.
Defined.

(** X20.  Authentication gives no token exactly when no [--token] is
    given, the OAuth flow fails and what is typed at the prompt is blank.
    A token given on the command line or by the OAuth flow is used as it
    is; a typed token is used trimmed, so it is not empty and neither
    starts nor ends with white space. *)
Theorem token_sources (values : Values) (oauth : option jsstring)
  (answer : jsstring) :
  (token_for values oauth answer = None
   <-> given (v_token values) = None /\ oauth = None
       /\ forallb is_space answer = true)
  /\ match given (v_token values), oauth with
     | Some token, _ => token_for values oauth answer = Some token
     | None, Some token => token_for values oauth answer = Some token
     | None, None =>
         match token_for values oauth answer with
         | Some token =>
             token = trim answer
             /\ nonempty token = true
             /\ is_space (hd 0%N token) = false
             /\ is_space (last token 0%N) = false
         | None => True
         end
     end.
Proof.
  unfold token_for, interactiveAuth, manual_token.
  destruct (given (v_token values)) as [t|]; [split; [|reflexivity]|].
  { split; [discriminate|]. intros (H & _); discriminate H. }
  destruct oauth as [t|]; [split; [|reflexivity]|].
  { split; [discriminate|]. intros (_ & H & _); discriminate H. }
  destruct (trim answer) as [|c r] eqn:Et.
  - assert (forallb is_space answer = true) as Hb by now apply trim_blank.
    rewrite orb_true_r. split; [tauto|exact I].
  - assert (forallb is_space answer = false) as Hb.
    { apply not_true_is_false; intros H. apply trim_blank in H. congruence. }
    assert (nonempty answer = true) as Hne
        by (destruct answer; [discriminate Hb|reflexivity]).
    rewrite Hne. cbn [negb orb nonempty].
    split; [split; [discriminate|intros (_ & _ & H); congruence]|].
    destruct (trim_ends answer) as [H1 H2]; [congruence|].
    rewrite Et in H1, H2. repeat split; assumption.
Qed.

(** X21.  The OAuth flow gets an authorization code only from a request
    to [/callback] that carries that code, not empty, with the state that
    was sent and without an error parameter, and that is the first
    request to settle the wait: every request before it was answered
    without effect. *)
Theorem callback_code (state : jsstring) (requests : list CallbackRequest)
  (code : jsstring) :
  authorization_code state requests = Some code ->
  exists before req after,
    requests = before ++ req :: after
    /\ Forall (fun q => snd (handle_callback q) = Pending) before
    /\ pathname req = lit "/callback"
    /\ given (q_error req) = None
    /\ q_code req = Some code
    /\ nonempty code = true
    /\ q_state req = Some state
    /\ fst (handle_callback req) = 200%Z.
Proof.
  unfold authorization_code.
  destruct (startCallbackServer requests) as [c s|e|] eqn:E;
    try discriminate.
  destruct (str_eqb s state) eqn:Es; [|discriminate].
  apply str_eqb_eq in Es; subst s. intros H; injection H as ->.
  destruct (startCallbackServer_resolved _ _ _ E)
    as (before & req & after & -> & Hb & Hr).
  apply handle_callback_resolved in Hr as (H1 & H2 & H3 & H4 & H5 & _ & H7).
  exists before, req, after. repeat split; assumption.
Qed.

Lemma callback_code_witness :
  exists before req after,
    [ {| pathname := lit "/favicon.ico"; q_code := None; q_state := None;
         q_error := None |};
      {| pathname := lit "/callback"; q_code := Some (lit "c0de");
         q_state := Some (lit "s7"); q_error := None |} ]
    = before ++ req :: after
    /\ Forall (fun q => snd (handle_callback q) = Pending) before
    /\ pathname req = lit "/callback"
    /\ given (q_error req) = None
    /\ q_code req = Some (lit "c0de")
    /\ nonempty (lit "c0de") = true
    /\ q_state req = Some (lit "s7")
    /\ fst (handle_callback req) = 200%Z.
Proof.
  apply (callback_code (lit "s7")). reflexivity.
Defined.

(** X22.  The requests of a client carry the identifiers 1, 2, 3, ... in
    the order they are made, whether they succeed or fail; all go to the
    URL the client was built with, without its final slash, with the same
    bearer token. *)
Theorem session_request_ids
  (fetch : jsstring -> jsstring -> jsstring -> option HttpResponse)
  (url tok : jsstring) (calls : list Call) :
  let client := new_client url tok in
  session fetch calls client
  = (map (fun ic : nat * Call =>
            outcome_of
              (fetch (strip_trailing_slash url) (lit "Bearer " ++ tok)
                 (stringify_compact
                    (call_body (Z.of_nat (fst ic)) (snd ic)))))
       (combine (seq 1 (length calls)) calls),
     {| baseUrl := strip_trailing_slash url; token := tok;
        requestId := Z.of_nat (length calls) |}).
Proof.
  cbv zeta. now rewrite (session_eq fetch calls (new_client url tok) 0).
Qed.

End CliExtras.

Module ReportExtras.

Import TokenCounter Benchmark Pure Readings Inputs StaticCli.
Import TokenCounterProofs RunnerProofs ScenarioProofs.





Section Estimator.

Variable encode : jsstring -> list N.
Hypothesis encode_nonempty : forall text, text <> [] -> encode text <> [].


End Estimator.



End ReportExtras.

(* ------------------------------------------------------------------ *)
(** ** The properties of the specification *)

Module Claims.

Import TokenCounter Benchmark Pure Inputs.
Import TokenCounterProofs RunnerProofs NormalizerProofs LoaderProofs.

(** C1.  The indirection cost [runBenchmark] reports does not depend on the
    catalogs: for a fixed vocabulary, whatever the labels, the sequences of
    catalogs and the states of the encoder, [metaToolsTokens] is the same
    number, the sum of the token counts of the four meta-tool
    definitions. *)
Theorem metaToolsTokens_constant (encode : jsstring -> list N) :
  length META_TOOLS = 4
  /\ forall label1 specs1 w1 label2 specs2 w2,
       metaToolsTokens (fst (runBenchmark encode label1 specs1 w1))
       = metaToolsTokens (fst (runBenchmark encode label2 specs2 w2))
       /\ metaToolsTokens (fst (runBenchmark encode label1 specs1 w1))
          = tools_tokens encode META_TOOLS.
Proof.
  split; [reflexivity|]; intros.
  now rewrite !runBenchmark_result.
Qed.

(** C2, as the specification states it, fails: a live run adds the cost of
    three response payloads, the one of [list_services] included, and the
    static report prints no fair comparison for a scenario of 100 tools or
    fewer.  Here: the live run against an organization with one service
    of nine tools, and the static report for the catalog of the
    meta-tools. *)
Lemma fair_total_counterexample :
  Live.runLiveBenchmark small_client small_parser = Some small_result
  /\ Live.metaToolsWorkflow (Live.fairComparison small_result) = 1323%Z
  /\ (Live.META_TOOLS_TOKENS * 3
      + Live.searchToolsResponse (Live.tokenMeasurements small_result)
      + Live.describeToolsResponse (Live.tokenMeasurements small_result))%Z
     = 1295%Z
  /\ fair_comparison
       [fst (runBenchmark unit_encode (lit "Single API") [meta_catalog]
               initial)] = None.
Proof. vm_compute. repeat split. Qed.

(** C2, amended.  A live run that completes reports as the workflow total
    of the meta-tools three times the constant 426 plus the token counts of
    the three responses it measured ([list_services], [search_tools],
    [describe_tools]), against a full expansion estimated at 140 tokens for
    each tool.  The static report computes a fair comparison for one
    scenario only, the first with more than 100 tools: three times its
    [metaToolsTokens] plus the constant 300, against its
    [fullExpansionTokens]; it computes none when no scenario has more than
    100 tools. *)
Theorem fair_total_accounts :
  (forall client parser r,
     Live.runLiveBenchmark client parser = Some r ->
     Live.metaToolsWorkflow (Live.fairComparison r)
     = (426 * 3
        + Live.listServicesResponse (Live.tokenMeasurements r)
        + Live.searchToolsResponse (Live.tokenMeasurements r)
        + Live.describeToolsResponse (Live.tokenMeasurements r))%Z
     /\ Live.fullExpansion (Live.fairComparison r)
        = (Live.tools_total r * 140)%Z
     /\ Live.difference (Live.fairComparison r)
        = (Live.fullExpansion (Live.fairComparison r)
           - Live.metaToolsWorkflow (Live.fairComparison r))%Z)
  /\ forall results,
       match fair_comparison results with
       | Some fc =>
           exists before largeOrg after,
             results = before ++ largeOrg :: after
             /\ Forall (fun x => (totalTools x <= 100)%Z) before
             /\ (100 < totalTools largeOrg)%Z
             /\ metaWorkflowTotal fc
                = (metaToolsTokens largeOrg * 3 + 300)%Z
             /\ fullWorkflowTotal fc = fullExpansionTokens largeOrg
       | None => Forall (fun x => (totalTools x <= 100)%Z) results
       end.
Proof.
  split.
  - intros client parser r H.
    destruct (LiveProofs.runLiveBenchmark_accounts _ _ _ H)
      as (Hm & Hf & Hd & _).
    repeat split; assumption.
  - intros results; unfold fair_comparison.
    induction results as [|x results IH]; [constructor|].
    cbn [find]. destruct (100 <? totalTools x)%Z eqn:E.
    + exists [], x, results; repeat split; auto.
      now apply Z.ltb_lt.
    + apply Z.ltb_ge in E.
      destruct (find _ results) as [largeOrg|].
      * destruct IH as (before & l & after & -> & Hb & Hl & Hm & Hf).
        exists (x :: before), l, after; repeat split; auto.
      * constructor; assumption.
Qed.

(** C2, amended, at the organization with one service of nine tools. *)
Lemma fair_total_accounts_witness :
  Live.runLiveBenchmark small_client small_parser = Some small_result
  /\ Live.metaToolsWorkflow (Live.fairComparison small_result)
     = (426 * 3
        + Live.listServicesResponse (Live.tokenMeasurements small_result)
        + Live.searchToolsResponse (Live.tokenMeasurements small_result)
        + Live.describeToolsResponse (Live.tokenMeasurements small_result))%Z.
Proof.
  assert (Live.runLiveBenchmark small_client small_parser = Some small_result)
    as H by (vm_compute; reflexivity).
  split; [exact H|].
  exact (proj1 (proj1 fair_total_accounts small_client small_parser
                  small_result H)).
Defined.



(** C4, as the specification states it, fails for the static comparison:
    [runBenchmark] counts with the exact tokenizer, not with the formula.
    For the text [a] the formula gives 2, and an encoding of a text of one
    code unit has one token at most; the vocabulary without merges gives
    1. *)
Lemma countTokens_formula_counterexample :
  EstimatorSpec.estimate (lit "a") = 2%Z
  /\ fst (countTokens unit_encode (lit "a") initial) = 1%Z
  /\ forall encode w,
       length (encode (lit "a")) <= length (lit "a") ->
       fst (countTokens encode (lit "a") w) <> EstimatorSpec.estimate (lit "a").
Proof.
  split; [reflexivity|split; [reflexivity|]].
  intros encode w H; rewrite countTokens_eq; cbn [fst].
  change (EstimatorSpec.estimate (lit "a")) with 2%Z.
  set (n := length (encode (lit "a"))) in *.
  change (length (lit "a")) with 1 in H; lia.
Qed.

(** C4, amended.  The heuristic estimator, with which the live comparison
    measures the responses of the endpoint, returns
    [ceil((ceil(S * 0.5 + W * 1.3) + ceil(length / 4)) / 2)] for every
    text, S being the number of occurrences of the structural characters
    and W the number of non-empty word fragments, as the specification
    words them.  The estimator of the static comparison is the exact
    tokenizer: it returns the number of tokens of the encoding of the
    text. *)
Theorem countTokens_formula :
  (forall text,
     Live.countTokens text
     = Qceiling
         (inject_Z
            (Qceiling (inject_Z (EstimatorSpec.S_count text) * 0.5
                       + inject_Z (EstimatorSpec.W_count text) * 1.3)%Q
             + Qceiling (inject_Z (Z.of_nat (length text)) / 4)%Q)
          / 2)%Q)
  /\ (forall client parser r,
        Live.runLiveBenchmark client parser = Some r ->
        exists raw1 args2 raw2 args3 raw3,
          Live.callTool client (lit "list_services") (JObject []) = Some raw1
          /\ Live.callTool client (lit "search_tools") args2 = Some raw2
          /\ Live.callTool client (lit "describe_tools") args3 = Some raw3
          /\ Live.listServicesResponse (Live.tokenMeasurements r)
             = Live.countTokens (Live.first_text raw1)
          /\ Live.searchToolsResponse (Live.tokenMeasurements r)
             = Live.countTokens (Live.first_text raw2)
          /\ Live.describeToolsResponse (Live.tokenMeasurements r)
             = Live.countTokens (Live.first_text raw3))
  /\ (forall encode text w,
        fst (countTokens encode text w) = Z.of_nat (length (encode text)))
  /\ (forall encode tool w,
        fst (countToolTokens encode tool w)
        = Z.of_nat (length (encode (JSON_stringify (tool_json tool))))).
Proof.
  split; [exact EstimatorProofs.countTokens_spec|].
  split; [exact LiveProofs.runLiveBenchmark_measures|].
  split; intros.
  - now rewrite countTokens_eq.
  - apply countToolTokens_fst.
Qed.

(** C4, amended, at the organization with one service of nine tools: the
    three measurements are the estimates of its three responses. *)
Lemma countTokens_formula_witness :
  Live.runLiveBenchmark small_client small_parser = Some small_result
  /\ exists raw1 args2 raw2 args3 raw3,
       Live.callTool small_client (lit "list_services") (JObject [])
       = Some raw1
       /\ Live.callTool small_client (lit "search_tools") args2 = Some raw2
       /\ Live.callTool small_client (lit "describe_tools") args3 = Some raw3
       /\ Live.listServicesResponse (Live.tokenMeasurements small_result)
          = Live.countTokens (Live.first_text raw1)
       /\ Live.searchToolsResponse (Live.tokenMeasurements small_result)
          = Live.countTokens (Live.first_text raw2)
       /\ Live.describeToolsResponse (Live.tokenMeasurements small_result)
          = Live.countTokens (Live.first_text raw3).
Proof.
  assert (Live.runLiveBenchmark small_client small_parser = Some small_result)
    as H by (vm_compute; reflexivity).
  split; [exact H|].
  exact (proj1 (proj2 countTokens_formula) small_client small_parser
           small_result H).
Defined.

(** C5.  The synthetic catalog of [N] operations holds [N] distinct paths
    with one verb each, written in the order of the indices, so that no
    entry is overwritten, and normalizes to exactly [N] tools; the catalog
    of no operation normalizes to the empty sequence. *)
Theorem generate_normalizes_to_N :
  openApiToMcpTools (generateSyntheticSpec 0) = []
  /\ forall N,
       length (openApiToMcpTools (generateSyntheticSpec N)) = N
       /\ paths (generateSyntheticSpec N) = map synthetic_entry (seq 0 N)
       /\ NoDup (map fst (paths (generateSyntheticSpec N)))
       /\ length (operations (generateSyntheticSpec N)) = N
       /\ map name (openApiToMcpTools (generateSyntheticSpec N))
          = map (fun i =>
                   synthetic_method i ++ lit "_" ++ synthetic_resource i
                   ++ lit "_" ++ Number_toString (i mod 5))
              (seq 0 N).
Proof.
  split; [reflexivity|]; intros N.
  rewrite openApiToMcpTools_operations, generated_operations, generated_paths.
  rewrite !length_map, length_seq, !map_map.
  repeat split.
  - apply Injective_map_NoDup; [|apply seq_NoDup].
    intros i j H; now apply synthetic_path_inj.
  - apply map_ext; intros i.
    rewrite operation_tool_name, tool_name_cases; cbn [fst snd operationId
      synthetic_operation].
    unfold synthetic_method, methods.
    pose proof (Nat.mod_upper_bound i 5 ltac:(discriminate)) as Hk.
    destruct (i mod 5) as [|[|[|[|[|k]]]]]; [..|lia]; reflexivity.
Qed.

(** C6, as the specification states it, fails: for the catalog of the four
    meta-tools the expansion costs what the indirection costs, so the
    percentage is 0 while [fullExpansionTokens] is not, under every
    vocabulary that encodes a non-empty text to at least one token. *)
Lemma percentage_zero_counterexample :
  exists specs,
    fullExpansionTokens
      (fst (runBenchmark unit_encode (lit "Meta API") specs initial))
    = 1873%Z
    /\ forall encode label w,
         (forall text, text <> [] -> encode text <> []) ->
         (percentageSaved (fst (runBenchmark encode label specs w)) == 0)%Q
         /\ fullExpansionTokens (fst (runBenchmark encode label specs w))
            <> 0%Z.
Proof.
  exists [meta_catalog]; split; [vm_compute; reflexivity|].
  intros encode label w Hne.
  rewrite runBenchmark_result.
  cbn [percentageSaved fullExpansionTokens].
  replace (all_tools [meta_catalog]) with META_TOOLS
    by (vm_compute; reflexivity).
  pose proof (meta_tokens_positive encode Hne) as Hpos.
  split; [|lia].
  destruct (0 <? tools_tokens encode META_TOOLS)%Z eqn:E; [|reflexivity].
  apply percentage_zero; lia.
Qed.

(** C6, amended.  The percentage is computed without any division by
    zero: it is [tokensSaved / fullExpansionTokens * 100] when
    [fullExpansionTokens > 0] and 0 otherwise; it is 0 exactly when
    [fullExpansionTokens = 0] or [tokensSaved = 0], that is, when the
    expansion costs nothing or costs what the indirection costs. *)
Theorem percentage_zero_cases encode label specs w :
  let r := fst (runBenchmark encode label specs w) in
  percentageSaved r
  = (if (0 <? fullExpansionTokens r)%Z
     then (inject_Z (tokensSaved r) / inject_Z (fullExpansionTokens r) * 100)%Q
     else 0%Q)
  /\ tokensSaved r = (fullExpansionTokens r - metaToolsTokens r)%Z
  /\ (0 <= fullExpansionTokens r)%Z
  /\ ((percentageSaved r == 0)%Q
      <-> fullExpansionTokens r = 0%Z
          \/ fullExpansionTokens r = metaToolsTokens r).
Proof.
  cbv zeta; rewrite runBenchmark_result.
  cbn [percentageSaved fullExpansionTokens tokensSaved metaToolsTokens].
  pose proof (tools_tokens_nonneg encode (all_tools specs)) as Hfull.
  repeat split; auto.
  - destruct (0 <? _)%Z eqn:E.
    + apply Z.ltb_lt in E. intros H; apply percentage_zero in H; lia.
    + apply Z.ltb_ge in E; intros _; lia.
  - destruct (0 <? _)%Z eqn:E; [|reflexivity].
    apply Z.ltb_lt in E. intros [H|H]; [lia|].
    apply percentage_zero; lia.
Qed.

(** C7.  Both estimators return a non-negative integer for every text and
    0 for the empty text: the heuristic one, and the exact one for a
    vocabulary that encodes the empty text to no token, in whatever state
    the encoder is. *)
Theorem estimate_nonneg_empty_zero (encode : jsstring -> list N) :
  encode [] = [] ->
  (forall text, (0 <= Live.countTokens text)%Z)
  /\ Live.countTokens [] = 0%Z
  /\ (forall text w, (0 <= fst (countTokens encode text w))%Z)
  /\ (forall w, fst (countTokens encode [] w) = 0%Z).
Proof.
  intros Hempty; repeat split.
  - apply EstimatorProofs.countTokens_nonneg.
  - intros text w; rewrite countTokens_eq; cbn [fst]; lia.
  - intros w; rewrite countTokens_eq, Hempty; reflexivity.
Qed.

(** C7 at the vocabulary without merges. *)
Lemma estimate_nonneg_empty_zero_witness :
  fst (countTokens unit_encode [] initial) = 0%Z.
Proof.
  exact (proj2 (proj2 (proj2 (estimate_nonneg_empty_zero unit_encode eq_refl)))
           initial).
Defined.

(** C8, as the specification states it, fails: an operation whose
    [operationId] is present and empty gets the synthesized name. *)
Lemma tool_name_counterexample :
  map (fun t => operationId (snd t)) (operations unnamed_catalog) = [Some []]
  /\ map name (openApiToMcpTools unnamed_catalog) = [lit "get__users__id_"].
Proof. vm_compute. split; reflexivity. Qed.

(** C8, amended.  The tools of a catalog are those of the (path, verb,
    operation) triples the normalizer processes, in order; the name of
    each is the [operationId] of the operation when it is present and not
    empty, and otherwise the verb, an underscore and the path template
    with every character that is not a letter or a digit replaced by an
    underscore. *)
Theorem tool_name_resolution (s : OpenAPISpec) :
  map name (openApiToMcpTools s)
  = map (fun t : jsstring * jsstring * OpenAPIOperation =>
           let '(path, method, op) := t in
           match operationId op with
           | Some id =>
               if nonempty id then id else synthesized_name path method
           | None => synthesized_name path method
           end)
      (operations s).
Proof.
  rewrite openApiToMcpTools_operations, map_map.
  apply map_ext; intros [[path method] op].
  cbn [fst snd]; now rewrite operation_tool_name, tool_name_cases.
Qed.


(** A whole run of the static benchmark, whatever the directory holds,
    builds one encoder and releases it once. *)
Theorem main_builds_and_releases_once (encode : jsstring -> list N) dir :
  snd (main encode dir initial)
  = {| encoder := None; built := 1; released := [0] |}.
Proof. now rewrite main_snd. Qed.

(** C10.  Under a vocabulary that encodes a non-empty text to at least one
    token the four meta-tool definitions cost at least one token, the
    tokens saved are fewer than the tokens of the expansion, and the
    percentage saved is below 100 for every sequence of catalogs; it is 0
    when the expansion costs nothing. *)
Theorem percentageSaved_below_100 (encode : jsstring -> list N) :
  (forall text, text <> [] -> encode text <> []) ->
  forall label specs w,
    let r := fst (runBenchmark encode label specs w) in
    (0 < metaToolsTokens r)%Z
    /\ (tokensSaved r < fullExpansionTokens r)%Z
    /\ (percentageSaved r < 100)%Q
    /\ ((fullExpansionTokens r <= 0)%Z -> percentageSaved r = 0%Q).
Proof.
  intros Hne label specs w; cbv zeta; rewrite runBenchmark_result.
  cbn [percentageSaved fullExpansionTokens tokensSaved metaToolsTokens].
  pose proof (meta_tokens_positive encode Hne) as Hpos.
  repeat split; [exact Hpos|lia| |].
  - destruct (0 <? _)%Z eqn:E; [|reflexivity].
    apply Z.ltb_lt in E; apply percentage_lt_100; lia.
  - intros H; apply Z.ltb_ge in H; now rewrite H.
Qed.

(** C10 at the vocabulary without merges and the catalog of the
    meta-tools. *)
Lemma percentageSaved_below_100_witness :
  (percentageSaved
     (fst (runBenchmark unit_encode (lit "Meta API") [meta_catalog] initial))
   < 100)%Q.
Proof.
  refine (proj1 (proj2 (proj2
            (percentageSaved_below_100 unit_encode _ (lit "Meta API")
               [meta_catalog] initial)))).
  intros text H; exact H.
Defined.

End Claims.

(* ------------------------------------------------------------------ *)
(** ** Checks on concrete inputs *)

Example countTokens_a : Live.countTokens (lit "a") = 2%Z.
Proof. reflexivity. Qed.

Example countTokens_json :
  Live.countTokens
    (lit "{" ++ QUOTE :: lit "toolName" ++ QUOTE :: lit ": [1, 2]}") = 8%Z.
Proof. vm_compute. reflexivity. Qed.

Example W_count_json :
  EstimatorSpec.W_count
    (lit "{" ++ QUOTE :: lit "toolName" ++ QUOTE :: lit ": [1, 2]}") = 4%Z.
Proof. vm_compute. reflexivity. Qed.

(** The heuristic estimator on the four meta-tool definitions, as the
    sample output of the README lists them. *)
Example META_TOOLS_heuristic :
  map (fun tool =>
         Live.countTokens (JSON_stringify (TokenCounter.tool_json tool)))
    Benchmark.META_TOOLS
  = [60; 123; 112; 131]%Z.
Proof. vm_compute. reflexivity. Qed.

(** The constant of the live benchmark is what the heuristic estimator
    gives for the four meta-tool definitions of the static benchmark. *)
Example META_TOOLS_TOKENS_measured :
  fold_right
    (fun tool acc =>
       (Live.countTokens (JSON_stringify (TokenCounter.tool_json tool)) + acc)%Z)
    0%Z Benchmark.META_TOOLS
  = Live.META_TOOLS_TOKENS.
Proof. vm_compute. reflexivity. Qed.

(** The synthetic services of the three large scenarios hold 90, 245 and
    833 tools. *)
Example synthetic_scenario_sizes :
  map (fun l => length (Pure.all_tools l))
    [ [Benchmark.synthetic_service (lit "Service A") 50;
       Benchmark.synthetic_service (lit "Service B") 40];
      Benchmark.numbered_services 7 20 5;
      Benchmark.numbered_services 17 25 3 ]
  = [90; 245; 833].
Proof. vm_compute. reflexivity. Qed.

Example meta_catalog_tools :
  Benchmark.openApiToMcpTools (Benchmark.spec Inputs.meta_catalog)
  = Benchmark.META_TOOLS.
Proof. vm_compute. reflexivity. Qed.

Example synthetic_names :
  map TokenCounter.name
    (Benchmark.openApiToMcpTools (Benchmark.generateSyntheticSpec 6))
  = [lit "get_resource0_0"; lit "post_resource0_1"; lit "put_resource0_2";
     lit "patch_resource0_3"; lit "delete_resource0_4";
     lit "get_resource1_0"].
Proof. vm_compute. reflexivity. Qed.
